(** * Cyberzilla Codex: the concurrent file-processing pipeline

    A shallow embedding of [src/codex.py]: the lock registry
    ([ConcurrencyManager.get_lock]), the tool runner
    ([EnterpriseAnalyzer._run_tool]), the per-file pipeline
    ([EnterpriseAnalyzer.process_file]) and the directory scanner with its
    worker pool ([EnterpriseAnalyzer.scan_directory]).

    Python values are modelled as follows.
    - [str] is [string]; a character stands for a code point below 256.
      Whether the console has an encoding for a line is left to the
      [Host].
    - [int] is [Z].
    - [pathlib.Path] is the list of its [parts].
    - a [dict] is a [gmap], a [set] a [gset].
    - an exception that leaves a function is the [Raise] case of [Res].
    - [print] writes a [Line] to the console, or raises when the console
      cannot take it.
    - the file system, the lock registry and a spy trace of the processes
      that were spawned form the [World] every effectful function threads.
    - what the operating system decides (which tools are installed, what a
      tool does, whether a file can be created, how a path resolves, in
      which order the worker pool completes its tasks, which lines the
      console can take) is a [Host].

    Three things are taken for granted. Renaming or removing a backup file
    that exists succeeds ([shutil.move], [os.remove]); the code guards both
    with [backup_path.exists()]. [Path.resolve] returns. A task of the pool
    is one step: the tool runs of two files are not interleaved; the order
    in which the tasks complete is free. *)

From stdpp Require Import gmap strings list fin_maps pretty.
From Stdlib Require Import Ascii ZArith Permutation.

(** ** Python strings *)

Module PyStr.

(** [bool(s)]: a string is truthy when it is not empty. *)
Definition truthy (s : string) : bool :=
  match s with
  | EmptyString => false
  | String _ _ => true
  end.

(** [s.rfind(c)]: the index of the last occurrence of [c]. *)
Fixpoint rfind (c : Ascii.ascii) (s : string) : option nat :=
  match s with
  | EmptyString => None
  | String a s' =>
      match rfind c s' with
      | Some i => Some (S i)
      | None => if Ascii.eqb a c then Some 0 else None
      end
  end.

(** [s[i:]] *)
Fixpoint drop (i : nat) (s : string) : string :=
  match i, s with
  | O, _ => s
  | S i', String _ s' => drop i' s'
  | S _, EmptyString => EmptyString
  end.

Definition is_lower (a : Ascii.ascii) : bool :=
  let n := Ascii.nat_of_ascii a in (97 <=? n) && (n <=? 122).

Definition is_upper (a : Ascii.ascii) : bool :=
  let n := Ascii.nat_of_ascii a in (65 <=? n) && (n <=? 90).

Definition upper (a : Ascii.ascii) : Ascii.ascii :=
  if is_lower a then Ascii.ascii_of_nat (Ascii.nat_of_ascii a - 32) else a.

Definition lower (a : Ascii.ascii) : Ascii.ascii :=
  if is_upper a then Ascii.ascii_of_nat (Ascii.nat_of_ascii a + 32) else a.

Fixpoint lower_all (s : string) : string :=
  match s with
  | EmptyString => EmptyString
  | String a s' => String (lower a) (lower_all s')
  end.

(** [s.capitalize()] on the ASCII letters. *)
Definition capitalize (s : string) : string :=
  match s with
  | EmptyString => EmptyString
  | String a s' => String (upper a) (lower_all s')
  end.

(** The line boundaries of [str.splitlines] among the code points below
    256: LF, VT, FF, CR, FS, GS, RS and NEL. (U+2028 and U+2029 are
    outside the character type.) *)
Definition is_linebreak (a : Ascii.ascii) : bool :=
  let n := Ascii.nat_of_ascii a in
  (n =? 10) || (n =? 11) || (n =? 12) || (n =? 13)
  || (n =? 28) || (n =? 29) || (n =? 30) || (n =? 133).

Definition is_cr (a : Ascii.ascii) : bool := Ascii.nat_of_ascii a =? 13.
Definition is_lf (a : Ascii.ascii) : bool := Ascii.nat_of_ascii a =? 10.

(** [splitlines_from cur s]: [cur] is the line read so far. A boundary
    closes the line, empty or not; CR LF is one boundary; what follows the
    last boundary is a line only when it is not empty. *)
Fixpoint splitlines_from (cur : string) (s : string) : list string :=
  match s with
  | EmptyString => if truthy cur then [cur] else []
  | String a s' =>
      if is_linebreak a then
        cur :: match s' with
               | String b s'' =>
                   if is_cr a && is_lf b then splitlines_from EmptyString s''
                   else splitlines_from EmptyString s'
               | EmptyString => splitlines_from EmptyString s'
               end
      else splitlines_from (cur +:+ String a EmptyString) s'
  end.

(** [s.splitlines()] *)
Definition splitlines (s : string) : list string :=
  splitlines_from EmptyString s.

End PyStr.

(** ** Paths *)

(** A [pathlib.Path] is the list of its parts; [Path(".")] is the empty
    list and the root of an absolute path is the part ["/"]. *)
Abbreviation Path := (list string) (only parsing).

Module PyPath.

Fixpoint join_parts (parts : Path) : string :=
  match parts with
  | [] => ""
  | [x] => x
  | x :: rest => x +:+ "/" +:+ join_parts rest
  end.

(** [str(p)] *)
Definition path_str (p : Path) : string :=
  match p with
  | [] => "."
  | "/" :: rest => "/" +:+ join_parts rest
  | _ => join_parts p
  end.

(** [p.name]: the final part, empty for [Path(".")] and for the root. *)
Definition name (p : Path) : string :=
  if decide (p = ["/"]) then "" else List.last p "".

(** [PurePath.suffix] of a name: from its last dot on, when that dot is
    neither the first nor the last character. *)
Definition name_suffix (nm : string) : string :=
  match PyStr.rfind "."%char nm with
  | Some i =>
      if (0 <? i) && (i <? String.length nm - 1) then PyStr.drop i nm
      else ""
  | None => ""
  end.

(** [p.suffix] *)
Definition suffix (p : Path) : string := name_suffix (name p).

(** [p.parent] *)
Definition parent (p : Path) : Path := removelast p.

(** [p.with_suffix(p.suffix + marker)]. Replacing the old suffix of the
    name by itself followed by [marker] appends [marker] to the name;
    [None] is the [ValueError] pathlib raises for an empty name. *)
Definition with_suffix_appended (p : Path) (marker : string) : option Path :=
  if PyStr.truthy (name p) then Some (removelast p ++ [name p +:+ marker])
  else None.

End PyPath.

(** ** Configuration and results *)

(** The value under the key ['command'] of a tool entry. The loader only
    checks that the key is present, so it is a list of arguments or any
    other JSON value; a string stands for the values that are not lists. *)
Inductive Command :=
| CmdList (argv : list string)
| CmdStr (s : string).

(** One entry of a language's tool list (a [dict] with the keys ['tool'],
    ['command'], ['check'], ['fix'] and, optionally, ['timeout']). *)
Record ToolConfig := {
  tc_tool : string;
  tc_command : Command;
  tc_check : bool;
  tc_fix : bool;
  tc_timeout : option Z
}.

(** [AppConfig], the fields the pipeline reads. *)
Record AppConfig := {
  fix_mode : bool;
  verbose : bool;
  max_workers : Z;
  default_timeout : Z;
  skip_dirs : gset string
}.

(** [AnalysisResult] *)
Record AnalysisResult := {
  file_path : string;
  language : string;
  success : bool;
  errors : list string;
  warnings : list string;
  was_fixed : bool
}.

(** [bool(tool_config.get('command'))] *)
Definition command_truthy (c : Command) : bool :=
  match c with
  | CmdList [] => false
  | CmdList (_ :: _) => true
  | CmdStr s => PyStr.truthy s
  end.

(** [EnterpriseAnalyzer.ext_map] *)
Definition ext_map : gmap string string :=
  list_to_map
    [ (".py", "python"); (".js", "javascript"); (".ts", "javascript");
      (".go", "go"); (".rs", "rust"); (".c", "c/c++"); (".cpp", "c/c++") ].

(** ** The world and the host *)

(** Exceptions that leave the modelled functions. *)
Inductive Exn :=
| TypeError (msg : string)
| ValueError (msg : string)
| UnicodeEncodeError (msg : string).

Inductive Res (A : Type) :=
| Ok (a : A)
| Raise (e : Exn).
Arguments Ok {A} a.
Arguments Raise {A} e.

(** What [json.load] returns. A number stands for every JSON number. *)
#[warnings="-register-all"]
Inductive JVal :=
| JNull
| JBool (b : bool)
| JNum (z : Z)
| JStr (s : string)
| JList (items : list JVal)
| JDict (fields : list (string * JVal)).

(** A run as the history file holds it. The constructor of [RunSummary]
    checks no type, so a field that is read back is the JSON value the file
    has for it. *)
Record StoredRun := {
  s_timestamp : JVal;
  s_total_files : JVal;
  s_passed : JVal;
  s_failed : JVal;
  s_fixed : JVal
}.

(** The trend [compare_and_update_history] reports. *)
Inductive Trend := Improved | Degraded | Stable.

(** What [print] is given, one constructor for each [print] of the
    functions embedded here, with the values its text is made of. A [print]
    of a text that is the same at every call is [Static], with the line of
    [src/codex.py] it stands on. [FoundFiles] is line 302, [Progress] line
    312, [RowLine] line 386 (the two marks and the three columns of a row
    of the report), [DetailLine] line 390, [Totals] line 393,
    [MergeBlocked] line 396, [Exported] and [ExportFailed] lines 408 and
    410 (with the path of the report and with the exception), [LastScan],
    [CurrentScan] and [TrendLine] lines 440 to 442, [SaveFailed] line 342,
    [HistoryRow] line 358 and [Fatal] line 495. *)
Inductive Line :=
| Static (src_line : nat)
| FoundFiles (n : nat)
| Progress (ok : bool) (file_path : string)
| RowLine (ok fixed : bool) (type file info : string)
| DetailLine (e : string)
| Totals (total passed failed fixed : Z)
| MergeBlocked (failed : Z)
| Exported
| ExportFailed
| LastScan (timestamp failed : JVal)
| CurrentScan (timestamp : string) (failed : Z)
| TrendLine (trend : Trend) (change : Z)
| SaveFailed
| HistoryRow (run : StoredRun)
| Fatal.

(** What [subprocess.run] does: it returns a [CompletedProcess], raises
    [TimeoutExpired], or raises something else. A return code is a Python
    [int]; on POSIX it is [-N] when signal [N] ended the child. *)
Inductive ProcOutcome :=
| Exited (returncode : Z) (stdout stderr : string)
| TimeoutExpired
| SpawnError (msg : string).

(** What the spy records: a process spawned by [_run_tool] with its role and
    outcome, and the per-file lock being taken and released. *)
Inductive Event :=
| EvRun (tool : string) (cmd : list string) (is_fixer : bool) (oc : ProcOutcome)
| EvAcquire (lock : nat)
| EvRelease (lock : nat).

(** A directory as [os.walk] lists it: its sub-directories, by name, and the
    names of its files. *)
#[warnings="-register-all"]
Inductive DirTree :=
| Dir (subdirs : list (string * DirTree)) (files : list string).

(** [ConcurrencyManager]: the lock of each resolved path. A lock object is
    known by its identity, the number of locks created before it. *)
Record ConcurrencyManager := {
  _locks : gmap string nat;
  created : nat
}.

Record World := {
  disk : gmap Path string;
  concurrency_manager : ConcurrencyManager;
  trace : list Event
}.

Record Host := {
  (** [shutil.which(name)] finds the tool *)
  which : string -> bool;
  (** opening the path for writing succeeds *)
  can_create : Path -> bool;
  (** [subprocess.run(cmd, cwd=..., timeout=...)], the n-th event of the
      run, on the files as they are: its outcome and the files it leaves *)
  subprocess_run : nat -> list string -> Path -> Z -> gmap Path string ->
                   ProcOutcome * gmap Path string;
  (** [str(p.resolve())] *)
  resolve : Path -> string;
  (** the tree [os.walk] finds under a path *)
  listing : Path -> DirTree;
  (** the scheduler: which pending task completes next *)
  picks : list nat;
  (** [print(line)] returns; otherwise it raises [UnicodeEncodeError], the
      console having no encoding for a character of the line *)
  prints : Line -> bool
}.

Definition set_disk (d : gmap Path string) (w : World) : World :=
  {| disk := d; concurrency_manager := concurrency_manager w; trace := trace w |}.

Definition set_manager (cm : ConcurrencyManager) (w : World) : World :=
  {| disk := disk w; concurrency_manager := cm; trace := trace w |}.

Definition record (e : Event) (w : World) : World :=
  {| disk := disk w; concurrency_manager := concurrency_manager w;
     trace := trace w ++ [e] |}.

(** What a [print] raises when the console cannot take the line. *)
Definition not_encodable : Exn :=
  UnicodeEncodeError "codec cannot encode character".

(** [ConcurrencyManager.__init__] *)
Definition new_manager : ConcurrencyManager := {| _locks := ∅; created := 0 |}.

(** ** File-system primitives *)

(** [p.exists()] *)
Definition exists_on (d : gmap Path string) (p : Path) : bool :=
  match d !! p with
  | Some _ => true
  | None => false
  end.

(** [shutil.move(src, dst)] between siblings: a rename, [dst] is replaced.
    The code calls it only when [src] exists. *)
Definition move (src dst : Path) (d : gmap Path string) : gmap Path string :=
  match d !! src with
  | Some c => <[dst := c]> (delete src d)
  | None => d
  end.

(** [os.remove(p)] *)
Definition remove (p : Path) (d : gmap Path string) : gmap Path string :=
  delete p d.

Section Analyzer.

Variable host : Host.
Variable config : AppConfig.
Variable tool_map : gmap string (list ToolConfig).

(** [shutil.copyfile(src, dst)]; [None] when it raises. *)
Definition copyfile (src dst : Path) (d : gmap Path string)
  : option (gmap Path string) :=
  match d !! src with
  | Some c => if can_create host dst then Some (<[dst := c]> d) else None
  | None => None
  end.

(** [ConcurrencyManager.get_lock]; the registry-wide lock makes the body
    one step. *)
Definition get_lock (file_path : Path) (cm : ConcurrencyManager)
  : nat * ConcurrencyManager :=
  let abs_path := resolve host file_path in
  match _locks cm !! abs_path with
  | Some l => (l, cm)
  | None =>
      let l := created cm in
      (l, {| _locks := <[abs_path := l]> (_locks cm); created := S l |})
  end.

(** [EnterpriseAnalyzer._run_tool] *)
Definition _run_tool (file_path : Path) (tool_config : ToolConfig)
    (is_fixer : bool) (w : World) : Res (Z * string * string) * World :=
  match tc_command tool_config with
  | CmdStr _ =>
      (Raise (TypeError "can only concatenate str (not list) to str"), w)
  | CmdList argv =>
      let cmd := argv ++ [PyPath.path_str file_path] in
      let tool_name := tc_tool tool_config in
      let timeout := default (default_timeout config) (tc_timeout tool_config) in
      match PyPath.with_suffix_appended file_path ".codex.bak" with
      | None => (Raise (ValueError "path has an empty name"), w)
      | Some backup_path =>
          let cmd0 := hd "" cmd in
          if negb (which host cmd0) then
            (Ok ((-1)%Z, "", "Tool '" +:+ cmd0 +:+ "' not found in system path."), w)
          else
            let d1 :=
              if is_fixer then
                match copyfile file_path backup_path (disk w) with
                | Some d => d
                | None => disk w
                end
              else disk w in
            let '(oc, d2) :=
              subprocess_run host (length (trace w)) cmd
                (PyPath.parent file_path) timeout d1 in
            let w2 := record (EvRun tool_name cmd is_fixer oc) w in
            match oc with
            | Exited returncode stdout stderr =>
                if is_fixer && negb (returncode =? 0)%Z && exists_on d2 backup_path
                then
                  (Ok (returncode, stdout,
                       "Fix failed; rolled back changes. " +:+ stderr),
                   set_disk (move backup_path file_path d2) w2)
                else
                  let d3 :=
                    if is_fixer && exists_on d2 backup_path
                    then remove backup_path d2 else d2 in
                  (Ok (returncode, stdout, stderr), set_disk d3 w2)
            | TimeoutExpired =>
                if is_fixer && exists_on d2 backup_path then
                  (Ok ((-2)%Z, "",
                       "Analysis timed out after " +:+ pretty timeout
                         +:+ "s and rolled back."),
                   set_disk (move backup_path file_path d2) w2)
                else
                  (Ok ((-2)%Z, "",
                       "Analysis timed out after " +:+ pretty timeout +:+ "s."),
                   set_disk d2 w2)
            | SpawnError e =>
                if is_fixer && exists_on d2 backup_path then
                  (Ok ((-3)%Z, "",
                       "Tool execution failed and rolled back: " +:+ e),
                   set_disk (move backup_path file_path d2) w2)
                else
                  (Ok ((-3)%Z, "", "Tool execution failed: " +:+ e),
                   set_disk d2 w2)
            end
      end
  end.

(** The fixing loop of [process_file], inside [with file_lock]: the first
    fixer whose result code is 0 sets [was_fixed] and ends the loop. *)
Fixpoint fix_loop (file_path : Path) (tools : list ToolConfig) (w : World)
  : Res bool * World :=
  match tools with
  | [] => (Ok false, w)
  | tool_config :: rest =>
      if tc_fix tool_config && command_truthy (tc_command tool_config) then
        match _run_tool file_path tool_config true w with
        | (Raise e, w') => (Raise e, w')
        | (Ok (code, _, _), w') =>
            if (code =? 0)%Z then (Ok true, w')
            else fix_loop file_path rest w'
        end
      else fix_loop file_path rest w
  end.

(** The analysis loop of [process_file], with the lists it appends to. *)
Fixpoint check_loop (file_path : Path) (tools : list ToolConfig)
    (errors warnings : list string) (w : World)
  : Res (list string * list string) * World :=
  match tools with
  | [] => (Ok (errors, warnings), w)
  | tool_config :: rest =>
      if tc_check tool_config && command_truthy (tc_command tool_config) then
        let tool_name := tc_tool tool_config in
        match _run_tool file_path tool_config false w with
        | (Raise e, w') => (Raise e, w')
        | (Ok (code, out, err), w') =>
            if (code =? -1)%Z then
              check_loop file_path rest errors
                (warnings ++ [tool_name +:+ " not available. Install it."]) w'
            else if negb (code =? 0)%Z || PyStr.truthy err then
              let output_lines := PyStr.splitlines (out +:+ err) in
              match output_lines with
              | [] =>
                  check_loop file_path rest
                    (errors ++ ["Exit code " +:+ pretty code +:+ " from " +:+ tool_name])
                    warnings w'
              | _ :: _ =>
                  check_loop file_path rest
                    (errors ++ map (fun line => "[" +:+ tool_name +:+ "] " +:+ line)
                                   (take 5 output_lines))
                    warnings w'
              end
            else check_loop file_path rest errors warnings w'
        end
      else check_loop file_path rest errors warnings w
  end.

(** The language a path is processed as: its suffix is a key of [ext_map],
    the language found is truthy and a key of [tool_map]. *)
Definition language_tools (file_path : Path)
  : option (string * list ToolConfig) :=
  match ext_map !! PyPath.suffix file_path with
  | Some lang_key =>
      if PyStr.truthy lang_key then
        match tool_map !! lang_key with
        | Some tools => Some (lang_key, tools)
        | None => None
        end
      else None
  | None => None
  end.

(** [EnterpriseAnalyzer.process_file] *)
Definition process_file (file_path : Path) (w : World)
  : Res AnalysisResult * World :=
  match language_tools file_path with
  | None =>
      (Ok {| file_path := PyPath.path_str file_path; language := "Unknown";
             success := false;
             errors := ["Unsupported language/extension"];
             warnings := []; was_fixed := false |}, w)
  | Some (lang_key, tools) =>
      let '(fixing, w1) :=
        if fix_mode config then
          let '(file_lock, cm) :=
            get_lock file_path (concurrency_manager w) in
          let w_locked := record (EvAcquire file_lock) (set_manager cm w) in
          let '(r, w_fixed) := fix_loop file_path tools w_locked in
          (r, record (EvRelease file_lock) w_fixed)
        else (Ok false, w) in
      match fixing with
      | Raise e => (Raise e, w1)
      | Ok fixed =>
          match check_loop file_path tools [] [] w1 with
          | (Raise e, w2) => (Raise e, w2)
          | (Ok (errs, warns), w2) =>
              (Ok {| file_path := PyPath.path_str file_path;
                     language := PyStr.capitalize lang_key;
                     success := match errs with [] => true | _ :: _ => false end;
                     errors := errs; warnings := warns;
                     was_fixed := fixed |}, w2)
          end
      end
  end.


(** [dirs[:] = [d for d in dirs if d not in self.config.skip_dirs]] *)
Definition prune (dirs : list string) : list string :=
  filter (fun d => d ∉ skip_dirs config) dirs.

(** [os.walk(root)], top-down, with the in-place pruning of
    [scan_directory]: each directory yields its path, the sub-directory
    names that are kept and its file names; only the kept sub-directories
    are entered. *)
Fixpoint walk (root : Path) (tree : DirTree)
  : list (Path * list string * list string) :=
  match tree with
  | Dir subdirs files =>
      (root, prune (map fst subdirs), files)
        :: (fix descend (ds : list (string * DirTree)) :=
              match ds with
              | [] => []
              | (d, sub) :: ds' =>
                  if bool_decide (d ∈ skip_dirs config) then descend ds'
                  else walk (root ++ [d]) sub ++ descend ds'
              end) subdirs
  end.

(** The files [scan_directory] collects: in every directory walked, the
    files whose suffix is a key of [ext_map]. *)
Definition files_to_scan (target : Path) : list Path :=
  flat_map
    (fun '(root, _, files) =>
       map (fun f => root ++ [f])
           (filter (fun f => is_Some (ext_map !! PyPath.name_suffix f)) files))
    (walk target (listing host target)).

(** The order in which the pool completes the submitted tasks: the
    scheduler picks one of the pending tasks at a time. *)
Fixpoint completion_order (choices : list nat) (pending : list Path)
    (fuel : nat) : list Path :=
  match fuel with
  | O => []
  | S fuel' =>
      match pending with
      | [] => []
      | first :: _ =>
          let k := (hd 0 choices) mod (length pending) in
          nth k pending first
            :: completion_order (tl choices) (delete k pending) fuel'
      end
  end.

(** Every submitted task runs to the end, whatever the others do; a task
    is [process_file] on one file and its outcome is kept in its future. *)
Fixpoint run_pool (order : list Path) (w : World)
  : list (Res AnalysisResult) * World :=
  match order with
  | [] => ([], w)
  | f :: rest =>
      let '(r, w1) := process_file f w in
      let '(rs, w2) := run_pool rest w1 in
      (r :: rs, w2)
  end.

(** What the loop over the futures prints for a result: its mark and its
    path when [verbose] is set, a dot otherwise. *)
Definition progress_line (result : AnalysisResult) : Line :=
  if verbose config then Progress (success result) (file_path result)
  else Static 314.

(** The loop over [as_completed(futures)]: [future.result()] returns the
    task's result or raises what the task raised, which ends the loop; a
    [print] the console cannot take ends it too. *)
Fixpoint gather (futures : list (Res AnalysisResult))
    (results : list AnalysisResult) : Res (list AnalysisResult) :=
  match futures with
  | [] => Ok results
  | Ok result :: rest =>
      if prints host (progress_line result)
      then gather rest (results ++ [result])
      else Raise not_encodable
  | Raise e :: _ => Raise e
  end.

(** [EnterpriseAnalyzer.scan_directory]. The pool is made once the files
    are found and counted; [ThreadPoolExecutor] raises [ValueError] unless
    [max_workers] is positive, and then no task is submitted. When an
    exception ends the loop over the futures, the pool still waits for
    every task that was submitted. *)
Definition scan_directory (path : Path) (w : World)
  : Res (list AnalysisResult) * World :=
  let files := files_to_scan path in
  if negb (prints host (FoundFiles (length files))) then
    (Raise not_encodable, w)
  else if (max_workers config <=? 0)%Z then
    (Raise (ValueError "max_workers must be greater than 0"), w)
  else
    let order := completion_order (picks host) files (length files) in
    let '(futures, w') := run_pool order w in
    match gather futures [] with
    | Raise e => (Raise e, w')
    | Ok results =>
        if prints host (Static 316) then (Ok results, w')
        else (Raise not_encodable, w')
    end.

End Analyzer.

(** * Vocabulary of the properties *)

(** The result code [_run_tool] gives an outcome of [subprocess.run]. *)
Definition result_code (oc : ProcOutcome) : Z :=
  match oc with
  | Exited returncode _ _ => returncode
  | TimeoutExpired => -2
  | SpawnError _ => -3
  end.

(** The fixer runs and the checker runs of a trace. *)
Definition is_fixer_run (e : Event) : bool :=
  match e with
  | EvRun _ _ b _ => b
  | _ => false
  end.

Definition is_checker_run (e : Event) : bool :=
  match e with
  | EvRun _ _ b _ => negb b
  | _ => false
  end.

(** The run of a process that exited with code 0. *)
Definition exited_zero (e : Event) : bool :=
  match e with
  | EvRun _ _ _ (Exited rc _ _) => (rc =? 0)%Z
  | _ => false
  end.

(** A checker run is clean when the checker exited 0 and wrote nothing to
    its standard error; the other events do not count. *)
Definition clean_if_checker (e : Event) : bool :=
  match e with
  | EvRun _ _ false (Exited rc _ err) => (rc =? 0)%Z && negb (PyStr.truthy err)
  | EvRun _ _ false _ => false
  | _ => true
  end.

(** What a call added to the trace. *)
Definition events_since (w w' : World) : list Event :=
  drop (length (trace w)) (trace w').


Section Vocabulary.

Variable host : Host.
Variable config : AppConfig.
Variable tool_map : gmap string (list ToolConfig).

(** The registry after a sequence of [get_lock] calls. *)
Definition after_calls (ps : list Path) (cm : ConcurrencyManager)
  : ConcurrencyManager :=
  foldl (fun cm p => (get_lock host p cm).2) cm ps.

(** Every lock in the registry was created by it, and no lock serves two
    paths. *)
Definition registry_ok (cm : ConcurrencyManager) : Prop :=
  (∀ k l, _locks cm !! k = Some l → l < created cm) ∧
  (∀ k1 k2 l, _locks cm !! k1 = Some l → _locks cm !! k2 = Some l → k1 = k2).

(** [shutil.which(cmd[0])] finds the tool of an entry. *)
Definition tool_found (p : Path) (tc : ToolConfig) : bool :=
  match tc_command tc with
  | CmdList argv => which host (hd "" (argv ++ [PyPath.path_str p]))
  | CmdStr _ => false
  end.

(** The error lines the analysis loop appends for a failing checker. *)
Definition tagged (tool_name : string) (line : string) : string :=
  "[" +:+ tool_name +:+ "] " +:+ line.

(** The futures of a scan, in completion order. *)
Definition pool_futures (target : Path) (w : World) : list (Res AnalysisResult) :=
  let files := files_to_scan host config target in
  (run_pool host config tool_map
     (completion_order (picks host) files (length files)) w).1.

End Vocabulary.

(** * Concrete configurations, hosts and worlds *)

Module Scenario.

(** [ConfigLoader.DEFAULT_TOOL_MAP] *)
Definition pylint : ToolConfig :=
  {| tc_tool := "pylint";
     tc_command := CmdList ["pylint"; "--output-format=json"; "--score=n"];
     tc_check := true; tc_fix := false; tc_timeout := Some 30%Z |}.

Definition black : ToolConfig :=
  {| tc_tool := "black"; tc_command := CmdList ["black"; "-q"];
     tc_check := false; tc_fix := true; tc_timeout := Some 30%Z |}.

Definition eslint : ToolConfig :=
  {| tc_tool := "eslint"; tc_command := CmdList ["eslint"; "--format=json"];
     tc_check := true; tc_fix := false; tc_timeout := Some 30%Z |}.

Definition prettier : ToolConfig :=
  {| tc_tool := "prettier"; tc_command := CmdList ["prettier"; "--write"];
     tc_check := false; tc_fix := true; tc_timeout := Some 30%Z |}.

Definition DEFAULT_TOOL_MAP : gmap string (list ToolConfig) :=
  {[ "python" := [pylint; black]; "javascript" := [eslint; prettier] ]}.

(** [AppConfig.DEFAULT_SKIP] *)
Definition DEFAULT_SKIP : gset string :=
  list_to_set [ "node_modules"; "venv"; ".venv"; "__pycache__"; ".git";
                "build"; "dist"; ".ipynb_checkpoints"; "site-packages" ].

Definition check_only : AppConfig :=
  {| fix_mode := false; verbose := false; max_workers := 4;
     default_timeout := 30; skip_dirs := DEFAULT_SKIP |}.

Definition fixing : AppConfig :=
  {| fix_mode := true; verbose := false; max_workers := 4;
     default_timeout := 30; skip_dirs := DEFAULT_SKIP |}.

(** [resolve] without symbolic links: the path is read from the working
    directory, [.] is dropped and [..] drops the part before it, the root
    apart. *)
Fixpoint normalise (seen : Path) (p : Path) : Path :=
  match p with
  | [] => rev seen
  | part :: rest =>
      if decide (part = ".") then normalise seen rest
      else if decide (part = "..") then
        normalise (if decide (seen = ["/"]) then seen else tl seen) rest
      else normalise (part :: seen) rest
  end.

Definition lexical_resolve (cwd p : Path) : string :=
  PyPath.path_str
    (normalise [] (if decide (hd "" p = "/") then p else cwd ++ p)).

(** A host given by the tools installed, the paths that can be created,
    what a command does to the files, and the tree under the scan root; its
    console takes every line. *)
Definition host_of (installed : list string) (creatable : Path → bool)
    (behaviour : list string → gmap Path string → ProcOutcome * gmap Path string)
    (tree : DirTree) : Host :=
  {| which := λ tool, bool_decide (tool ∈ installed);
     can_create := creatable;
     subprocess_run := λ _ cmd _ _ d, behaviour cmd d;
     resolve := lexical_resolve ["/"; "repo"];
     listing := λ _, tree;
     picks := [];
     prints := λ _, true |}.

(** A host with another console. *)
Definition with_console (host : Host) (console : Line → bool) : Host :=
  {| which := which host; can_create := can_create host;
     subprocess_run := subprocess_run host; resolve := resolve host;
     listing := listing host; picks := picks host; prints := console |}.

(** A console that has no encoding for the marks of a result, of a row of
    the report and of a trend that goes up or down. *)
Definition ascii_only (line : Line) : bool :=
  match line with
  | Progress _ _ | RowLine _ _ _ _ _ | DetailLine _ => false
  | TrendLine Stable _ => true
  | TrendLine _ _ => false
  | _ => true
  end.

Definition a_py : Path := ["a.py"].
Definition a_py_backup : Path := ["a.py.codex.bak"].

Definition world_with (files : list (Path * string)) : World :=
  {| disk := list_to_map files; concurrency_manager := new_manager;
     trace := [] |}.

Definition just_a_py : DirTree := Dir [] ["a.py"].

(** A checker that finds nothing, a fixer that rewrites the file. *)
Definition well_behaved (cmd : list string) (d : gmap Path string)
  : ProcOutcome * gmap Path string :=
  match cmd with
  | "black" :: _ => (Exited 0 "" "", <[a_py := "formatted"]> d)
  | _ => (Exited 0 "" "", d)
  end.

(** A fixer that damages the file and then fails. *)
Definition failing_fixer (cmd : list string) (d : gmap Path string)
  : ProcOutcome * gmap Path string :=
  match cmd with
  | "black" :: _ => (Exited 1 "" "cannot format", <[a_py := "damaged"]> d)
  | _ => (Exited 0 "" "", d)
  end.

(** A second fixer entry after [black]. *)
Definition autopep8 : ToolConfig :=
  {| tc_tool := "autopep8"; tc_command := CmdList ["autopep8"; "--in-place"];
     tc_check := false; tc_fix := true; tc_timeout := None |}.

Definition two_fixers : gmap string (list ToolConfig) :=
  {[ "python" := [pylint; black; autopep8] ]}.

(** The first fixer damages the file and fails, the second one works. *)
Definition second_fixer_works (cmd : list string) (d : gmap Path string)
  : ProcOutcome * gmap Path string :=
  match cmd with
  | "black" :: _ => (Exited 1 "" "cannot format", <[a_py := "damaged"]> d)
  | "autopep8" :: _ => (Exited 0 "" "", <[a_py := "formatted"]> d)
  | _ => (Exited 0 "" "", d)
  end.




(** A configuration file that gives a command as one string; it has the
    four required keys, so [_validate_tool_map] keeps it. *)
Definition eslint_as_string : ToolConfig :=
  {| tc_tool := "eslint"; tc_command := CmdStr "eslint --format=json";
     tc_check := true; tc_fix := false; tc_timeout := Some 30%Z |}.

Definition string_command_map : gmap string (list ToolConfig) :=
  {[ "python" := [pylint; black]; "javascript" := [eslint_as_string] ]}.

Definition a_py_and_b_js : DirTree := Dir [] ["a.py"; "b.js"].

(** Every process is ended by signal 1: [returncode] is -1. *)
Definition killed_by_sighup (cmd : list string) (d : gmap Path string)
  : ProcOutcome * gmap Path string :=
  (Exited (-1) "" "", d).

(** A checker that reports seven lines and exits 1. *)
Definition seven_findings : string :=
  "l1
l2
l3
l4
l5
l6
l7
".

Definition noisy_checker (cmd : list string) (d : gmap Path string)
  : ProcOutcome * gmap Path string :=
  (Exited 1 seven_findings "", d).

(** A tree with a vendored directory, nested. *)
Definition with_vendored : DirTree :=
  Dir [ ("node_modules", Dir [("pkg", Dir [] ["index.js"])] ["x.js"]);
        ("src", Dir [("node_modules", Dir [] ["y.js"])] ["b.py"; "notes.txt"]) ]
      ["a.py"].

(** The hosts of the runs below. *)
Definition everything_clean : Host :=
  host_of ["pylint"; "black"; "eslint"; "prettier"; "autopep8"] (λ _, true)
    well_behaved just_a_py.

Definition nothing_installed : Host :=
  host_of [] (λ _, true) well_behaved just_a_py.

Definition black_fails : Host :=
  host_of ["pylint"; "black"] (λ _, true) failing_fixer just_a_py.

Definition black_fails_no_backup : Host :=
  host_of ["pylint"; "black"] (λ _, false) failing_fixer just_a_py.

Definition black_fails_autopep8_works : Host :=
  host_of ["pylint"; "black"; "autopep8"] (λ _, true) second_fixer_works
    just_a_py.


Definition pylint_killed : Host :=
  host_of ["pylint"] (λ _, true) killed_by_sighup just_a_py.

Definition pylint_noisy : Host :=
  host_of ["pylint"] (λ _, true) noisy_checker just_a_py.

Definition two_languages : Host :=
  host_of ["pylint"; "black"; "eslint"] (λ _, true) well_behaved a_py_and_b_js.

Definition vendored : Host :=
  host_of ["pylint"] (λ _, true) well_behaved with_vendored.

Definition two_languages_ascii : Host := with_console two_languages ascii_only.

Definition chatty : AppConfig :=
  {| fix_mode := false; verbose := true; max_workers := 4;
     default_timeout := 30; skip_dirs := DEFAULT_SKIP |}.

Definition no_worker : AppConfig :=
  {| fix_mode := false; verbose := false; max_workers := -1;
     default_timeout := 30; skip_dirs := DEFAULT_SKIP |}.

(** The worlds of the runs below. *)
Definition original : World := world_with [(a_py, "original")].

Definition stale_backup : World :=
  world_with [(a_py, "original"); (a_py_backup, "stale")].

End Scenario.

(** * The rest of the program *)

(** ** JSON values and the configuration loader *)

(** A [dict] whose order of keys matters is the list of its items, in
    insertion order. [d[k] = v] replaces the value of a key that is there
    and appends a key that is not. *)
Fixpoint dict_set {V : Type} (k : string) (v : V) (d : list (string * V))
  : list (string * V) :=
  match d with
  | [] => [(k, v)]
  | (k', v') :: rest =>
      if decide (k' = k) then (k, v) :: rest else (k', v') :: dict_set k v rest
  end.

(** [d.get(k)] *)
Fixpoint dict_get {V : Type} (k : string) (d : list (string * V)) : option V :=
  match d with
  | [] => None
  | (k', v) :: rest => if decide (k' = k) then Some v else dict_get k rest
  end.

(** [needle in hay] on strings. *)
Fixpoint contains (needle hay : string) : bool :=
  if String.prefix needle hay then true
  else match hay with
       | EmptyString => false
       | String _ hay' => contains needle hay'
       end.

Definition is_str (k : string) (v : JVal) : bool :=
  match v with
  | JStr s => String.eqb s k
  | _ => false
  end.

Module ConfigLoader.

(** [k in tool_def]: a key of a dict, an item of a list, a part of a
    string; on any other value Python raises [TypeError]. *)
Definition key_in (k : string) (tool_def : JVal) : Res bool :=
  match tool_def with
  | JDict fields => Ok (bool_decide (k ∈ map fst fields))
  | JList items => Ok (existsb (is_str k) items)
  | JStr s => Ok (contains k s)
  | JNull | JBool _ | JNum _ =>
      Raise (TypeError "argument is not iterable")
  end.

Definition required_keys : list string := ["tool"; "command"; "check"; "fix"].

(** [all(k in tool_def for k in keys)]: it stops at the first key that is
    missing. *)
Fixpoint all_keys_in (keys : list string) (tool_def : JVal) : Res bool :=
  match keys with
  | [] => Ok true
  | k :: rest =>
      match key_in k tool_def with
      | Raise e => Raise e
      | Ok false => Ok false
      | Ok true => all_keys_in rest tool_def
      end
  end.

(** The inner loop of [_validate_tool_map]: the entries that have the
    required keys, in order. *)
Fixpoint valid_tools_of (tools : list JVal) : Res (list JVal) :=
  match tools with
  | [] => Ok []
  | tool_def :: rest =>
      match all_keys_in required_keys tool_def with
      | Raise e => Raise e
      | Ok keep =>
          match valid_tools_of rest with
          | Raise e => Raise e
          | Ok valid_tools => Ok (if keep then tool_def :: valid_tools else valid_tools)
          end
      end
  end.

(** The outer loop of [_validate_tool_map], with the map built so far. *)
Fixpoint validate_from (items : list (string * JVal))
    (valid_map : list (string * JVal)) : Res (list (string * JVal)) :=
  match items with
  | [] => Ok valid_map
  | (lang, tools) :: rest =>
      match tools with
      | JList tool_defs =>
          match valid_tools_of tool_defs with
          | Raise e => Raise e
          | Ok [] => validate_from rest valid_map
          | Ok (t :: ts) =>
              validate_from rest (dict_set lang (JList (t :: ts)) valid_map)
          end
      | _ => validate_from rest valid_map
      end
  end.

(** [ConfigLoader._validate_tool_map] *)
Definition _validate_tool_map (tool_map : list (string * JVal))
  : Res (list (string * JVal)) :=
  validate_from tool_map [].

(** [AppConfig.DEFAULT_SKIP] *)
Definition DEFAULT_SKIP : gset string :=
  list_to_set [ "node_modules"; "venv"; ".venv"; "__pycache__"; ".git";
                "build"; "dist"; ".ipynb_checkpoints"; "site-packages" ].

(** [ConfigLoader.DEFAULT_TOOL_MAP] *)
Definition tool_entry (tool : string) (command : list string)
    (is_check is_fix : bool) : JVal :=
  JDict [ ("tool", JStr tool); ("command", JList (map JStr command));
          ("check", JBool is_check); ("fix", JBool is_fix);
          ("timeout", JNum 30) ].

Definition DEFAULT_TOOL_MAP : list (string * JVal) :=
  [ ("python",
     JList [ tool_entry "pylint" ["pylint"; "--output-format=json"; "--score=n"]
               true false;
             tool_entry "black" ["black"; "-q"] false true ]);
    ("javascript",
     JList [ tool_entry "eslint" ["eslint"; "--format=json"] true false;
             tool_entry "prettier" ["prettier"; "--write"] false true ]) ].

(** [d.update(items)] *)
Definition dict_update {V : Type} (items d : list (string * V))
  : list (string * V) :=
  foldl (λ d kv, dict_set kv.1 kv.2 d) d items.

(** What [load] finds at one of [CONFIG_FILES]: no file; a file on which
    [open], [json.load] or [config_data.update] raises, with the items the
    update had taken before it raised (none when the file cannot be opened
    or parsed); or a file whose items are all taken, a JSON object most of
    the time. The items are those with a string for a key: [load] looks up
    no other. *)
Inductive ConfigFile :=
| Absent
| Unreadable (taken : list (string * JVal))
| Object (fields : list (string * JVal)).

(** The loop over [CONFIG_FILES]: the first file that loads ends it; one
    that fails is skipped, and what it has put in [config_data] stays. *)
Fixpoint load_files (files : list ConfigFile)
    (config_data : list (string * JVal)) : list (string * JVal) :=
  match files with
  | [] => config_data
  | Absent :: rest => load_files rest config_data
  | Unreadable taken :: rest => load_files rest (dict_update taken config_data)
  | Object fields :: _ => dict_update fields config_data
  end.

(** The fields of the [AppConfig] that [load] builds. The dataclass checks
    no type, so the settings are kept as the JSON values they are; the
    strings of [skip_dirs] are kept as a set. *)
Record LoadedConfig := {
  lc_fix_mode : bool;
  lc_verbose : bool;
  lc_max_workers : JVal;
  lc_history_file : JVal;
  lc_output_dir : JVal;
  lc_default_timeout : JVal;
  lc_skip_dirs : gset string
}.

Inductive LoadExn :=
| AttributeError (msg : string)
| Unhashable (msg : string)
| Validation (e : Exn).

Inductive Loaded :=
| LoadOk (config : LoadedConfig) (tool_map : list (string * JVal))
| LoadRaise (e : LoadExn).

Definition is_unhashable (v : JVal) : bool :=
  match v with
  | JList _ | JDict _ => true
  | _ => false
  end.

Definition strings_of (items : list JVal) : list string :=
  omap (λ v, match v with JStr s => Some s | _ => None end) items.

Fixpoint chars_of (s : string) : list string :=
  match s with
  | EmptyString => []
  | String a s' => String a EmptyString :: chars_of s'
  end.

(** The strings of [set(v)]: the string items of a list (an item that is a
    list or a dict is not hashable), the keys of a dict, the characters of a
    string; a number, a boolean or [None] is not iterable. *)
Definition set_of (v : JVal) : LoadExn + gset string :=
  match v with
  | JList items =>
      if existsb is_unhashable items then inl (Unhashable "unhashable type")
      else inr (list_to_set (strings_of items))
  | JDict fields => inr (list_to_set (map fst fields))
  | JStr s => inr (list_to_set (chars_of s))
  | JNull | JBool _ | JNum _ => inl (Unhashable "object is not iterable")
  end.

(** [ConfigLoader.load], on what is found at [CONFIG_FILES]. *)
Definition load (files : list ConfigFile) : Loaded :=
  let config_data := load_files files [] in
  let app_settings := default (JDict []) (dict_get "app_settings" config_data) in
  let tool_map :=
    default (JDict DEFAULT_TOOL_MAP) (dict_get "language_tools" config_data) in
  match app_settings with
  | JDict settings =>
      match set_of (default (JList []) (dict_get "skip_dirs" settings)) with
      | inl e => LoadRaise e
      | inr skip =>
          let config :=
            {| lc_fix_mode := false; lc_verbose := false;
               lc_max_workers := default (JNum 4) (dict_get "max_workers" settings);
               lc_history_file :=
                 default (JStr "codex_history.json")
                   (dict_get "history_file" settings);
               lc_output_dir :=
                 default (JStr "reports") (dict_get "output_dir" settings);
               lc_default_timeout :=
                 default (JNum 30) (dict_get "default_timeout" settings);
               lc_skip_dirs := skip ∪ DEFAULT_SKIP |} in
          match tool_map with
          | JDict langs =>
              match _validate_tool_map langs with
              | Ok valid_map => LoadOk config valid_map
              | Raise e => LoadRaise (Validation e)
              end
          | _ => LoadRaise (AttributeError "object has no attribute items")
          end
      end
  | _ => LoadRaise (AttributeError "object has no attribute get")
  end.

End ConfigLoader.

(** ** Reporting and history *)

(** [RunSummary]; the counts are Python integers. *)
Record RunSummary := {
  timestamp : string;
  total_files : Z;
  passed : Z;
  failed : Z;
  fixed : Z
}.

(** [sum(1 for r in results if test(r))] *)
Definition count_where (test : AnalysisResult → bool)
    (results : list AnalysisResult) : Z :=
  Z.of_nat (length (List.filter test results)).

Fixpoint spaces (n : nat) : string :=
  match n with
  | O => EmptyString
  | S n' => String " " (spaces n')
  end.

(** The format [{s:<width}]: padded with spaces on the right, never cut. *)
Definition ljust (width : nat) (s : string) : string :=
  s +:+ spaces (width - String.length s).

(** The name a report row shows: a path of more than 30 characters is
    shown as three dots and its last 27 characters. *)
Definition display_name (fname : string) : string :=
  if 30 <? String.length fname
  then "..." +:+ PyStr.drop (String.length fname - 27) fname
  else fname.

(** One row of the final table, by column, and the error lines under it. *)
Record ReportRow := {
  row_ok : bool;
  row_fixed : bool;
  row_type : string;
  row_file : string;
  row_info : string;
  row_details : list string
}.

Definition report_row (r : AnalysisResult) : ReportRow :=
  {| row_ok := success r;
     row_fixed := was_fixed r;
     row_type := ljust 10 (language r);
     row_file := ljust 30 (display_name (file_path r));
     row_info :=
       (if success r then "OK" else pretty (length (errors r)) +:+ " Err")
       +:+ (if was_fixed r then " (Fixed)" else "");
     row_details :=
       if negb (success r) && (0 <? length (errors r)) then take 3 (errors r)
       else [] |}.

(** Some [print]s one after the other: whether the console took every
    line. The first one it cannot take raises. *)
Definition print_all (host : Host) (lines : list Line) : bool :=
  forallb (prints host) lines.

(** The loop over the results of [generate_report]: each result gets its
    row, then its error lines. The rows whose line was printed, and whether
    the loop came to its end. *)
Fixpoint print_table (host : Host) (results : list AnalysisResult)
  : list ReportRow * bool :=
  match results with
  | [] => ([], true)
  | r :: rest =>
      let row := report_row r in
      if prints host (RowLine (row_ok row) (row_fixed row) (row_type row)
                        (row_file row) (row_info row)) then
        if print_all host (map DetailLine (row_details row)) then
          let '(rows, finished) := print_table host rest in
          (row :: rows, finished)
        else ([row], false)
      else ([], false)
  end.

(** [generate_report]: the rows it prints, whether it prints the line
    "MERGE BLOCKED", and the summary it returns; no summary when it raises,
    which it does at a [print] the console cannot take and when
    [output_path.mkdir] raises ([mkdir_ok] says that the report directory
    is there or can be made). The JSON export is inside [try]: when it
    fails ([export_ok] says that it does not), or when the line that
    reports it cannot be printed, the handler prints a line of its own.
    [now] is the time of the call. *)
Definition generate_report (host : Host) (now : string)
    (mkdir_ok export_ok : bool) (results : list AnalysisResult)
  : list ReportRow * bool * option RunSummary :=
  let total := Z.of_nat (length results) in
  let n_passed := count_where success results in
  let n_fixed := count_where was_fixed results in
  let n_failed := (total - n_passed)%Z in
  if negb (print_all host (map Static [370; 371; 372; 373; 374])) then
    ([], false, None)
  else
    match print_table host results with
    | (rows, false) => (rows, false, None)
    | (rows, true) =>
        if negb (print_all host
                   [Static 392; Totals total n_passed n_failed n_fixed]) then
          (rows, false, None)
        else if (0 <? n_failed)%Z && negb (prints host (MergeBlocked n_failed))
        then (rows, false, None)
        else
          (rows, (0 <? n_failed)%Z,
           if mkdir_ok
              && ((export_ok && prints host Exported) || prints host ExportFailed)
           then
             Some {| timestamp := now; total_files := total;
                     passed := n_passed; failed := n_failed;
                     fixed := n_fixed |}
           else None)
    end.

(** A summary that [generate_report] made, as it stands in a history. *)
Definition stored (s : RunSummary) : StoredRun :=
  {| s_timestamp := JStr (timestamp s);
     s_total_files := JNum (total_files s);
     s_passed := JNum (passed s);
     s_failed := JNum (failed s);
     s_fixed := JNum (fixed s) |}.

(** The history file: missing; not loadable ([json.load] raises, or the
    data is not a sequence of objects with the five fields of a run and no
    other); or holding a list of runs. *)
Inductive HistoryFile :=
| NoHistory
| BadHistory
| History (runs : list StoredRun).




(** The value of [v] in [n - v]: an integer, a boolean as 0 or 1; on any
    other value the subtraction raises [TypeError]. (A number of the file
    is read as an integer, which is what [save] writes for a count.) *)
Definition as_int (v : JVal) : option Z :=
  match v with
  | JNum z => Some z
  | JBool b => Some (Z.b2z b)
  | JNull | JStr _ | JList _ | JDict _ => None
  end.

Module HistoryManager.

(** [HistoryManager.load] *)
Definition load (file : HistoryFile) : list StoredRun :=
  match file with
  | NoHistory => []
  | BadHistory => []
  | History runs => runs
  end.

(** [HistoryManager.save]: what it raised, and the file it leaves. A
    failure to write is caught and printed. *)
Definition save (host : Host) (writable : bool) (history : list StoredRun)
    (file : HistoryFile) : option Exn * HistoryFile :=
  if writable then (None, History history)
  else if prints host SaveFailed then (None, file)
  else (Some not_encodable, file).


End HistoryManager.

(** [compare_and_update_history]: the trend it prints with the size of the
    change, or nothing when there is no earlier run, and the history file
    it leaves. When [failed] of the last run is not a number the
    subtraction raises; it comes before the trend is printed, and the
    history is appended to and saved after that. *)
Definition compare_and_update_history (host : Host)
    (current_summary : RunSummary) (writable : bool) (file : HistoryFile)
  : Res (option (Trend * Z)) * HistoryFile :=
  let history := HistoryManager.load file in
  let finish (shown : option (Trend * Z)) :=
    match
      HistoryManager.save host writable (history ++ [stored current_summary])
        file
    with
    | (None, file') => (Ok shown, file')
    | (Some e, file') => (Raise e, file')
    end in
  if negb (print_all host (map Static [426; 427; 428])) then
    (Raise not_encodable, file)
  else
    match last history with
    | Some last_run =>
        match as_int (s_failed last_run) with
        | Some last_failed =>
            let diff_failed := (failed current_summary - last_failed)%Z in
            let trend :=
              if (diff_failed <? 0)%Z then Improved
              else if (0 <? diff_failed)%Z then Degraded else Stable in
            if print_all host
                 [ LastScan (s_timestamp last_run) (s_failed last_run);
                   CurrentScan (timestamp current_summary)
                     (failed current_summary);
                   TrendLine trend (Z.abs diff_failed) ]
            then finish (Some (trend, Z.abs diff_failed))
            else (Raise not_encodable, file)
        | None => (Raise (TypeError "unsupported operand type(s) for -"), file)
        end
    | None =>
        if prints host (Static 444) then finish None
        else (Raise not_encodable, file)
    end.

(** [f.endswith(suffix)] *)
Definition endswith (s suffix : string) : bool :=
  (String.length suffix <=? String.length s)
  && String.eqb (PyStr.drop (String.length s - String.length suffix) s) suffix.

(** [os.walk(root)] with nothing pruned. *)
Fixpoint walk_all (root : Path) (tree : DirTree)
  : list (Path * list string * list string) :=
  match tree with
  | Dir subdirs files =>
      (root, map fst subdirs, files)
        :: (fix descend (ds : list (string * DirTree)) :=
              match ds with
              | [] => []
              | (d, sub) :: ds' => walk_all (root ++ [d]) sub ++ descend ds'
              end) subdirs
  end.

Section Program.

Variable host : Host.

(** One [os.remove] of [cleanup_backups], with the count: the file is
    removed and counted, or the exception is passed over. [removable] says
    whether the system lets the file be removed. *)
Definition remove_counted (removable : Path → bool) (p : Path)
    (st : gmap Path string * nat) : gmap Path string * nat :=
  if exists_on st.1 p && removable p then (remove p st.1, S st.2) else st.

(** [cleanup_backups]: the files left and the number it reports. *)
Definition cleanup_backups (removable : Path → bool) (path : Path)
    (d : gmap Path string) : gmap Path string * nat :=
  foldl
    (λ st '(root, _, files),
       foldl (λ st f,
                if endswith f ".codex.bak"
                then remove_counted removable (root ++ [f]) st else st)
             st files)
    (d, 0) (walk_all path (listing host path)).

(** [config.fix_mode = fix_mode; config.verbose = verbose] *)
Definition with_modes (fix_on verbose_on : bool) (config : AppConfig)
  : AppConfig :=
  {| fix_mode := fix_on; verbose := verbose_on;
     max_workers := max_workers config;
     default_timeout := default_timeout config;
     skip_dirs := skip_dirs config |}.

(** [run_analysis]. [loaded] is what [ConfigLoader.load()] returned, with
    settings of the types [AppConfig] declares, as the analyzer reads it,
    or [None] when it raised; [history] is the file [config.history_file]
    names. The analyzer is a new one, with a lock registry of its own. Any
    exception is caught and reported on the console, and gives [False];
    when that line cannot be printed, the exception of the [print] leaves
    [run_analysis]. *)
Definition run_analysis
    (loaded : option (AppConfig * gmap string (list ToolConfig)))
    (now : string) (mkdir_ok export_ok history_writable : bool)
    (target_path : Path) (fix_on verbose_on : bool)
    (w : World) (history : HistoryFile) : Res bool * World * HistoryFile :=
  let fatal (w' : World) (history' : HistoryFile) :=
    (if prints host Fatal then Ok false else Raise not_encodable,
     w', history') in
  match loaded with
  | None => fatal w history
  | Some (config0, tool_map) =>
      let config := with_modes fix_on verbose_on config0 in
      match
        scan_directory host config tool_map target_path
          (set_manager new_manager w)
      with
      | (Raise _, w') => fatal w' history
      | (Ok results, w') =>
          match generate_report host now mkdir_ok export_ok results with
          | (_, _, None) => fatal w' history
          | (_, _, Some summary) =>
              match
                compare_and_update_history host summary history_writable
                  history
              with
              | (Raise _, history') => fatal w' history'
              | (Ok _, history') => (Ok (failed summary =? 0)%Z, w', history')
              end
          end
      end
  end.

End Program.

(** ** More vocabulary *)

(** A value that is neither a dict, a list nor a string. *)
Definition is_scalar (v : JVal) : bool :=
  match v with
  | JNull | JBool _ | JNum _ => true
  | _ => false
  end.

(** An entry that passes the check of [_validate_tool_map]. *)
Definition has_required_keys (tool_def : JVal) : Prop :=
  ConfigLoader.all_keys_in ConfigLoader.required_keys tool_def = Ok true.

(** The entries the analysis loop invokes. *)
Definition is_checker_entry (tc : ToolConfig) : bool :=
  tc_check tc && command_truthy (tc_command tc).

(** The directory reached from a tree by a chain of sub-directory names,
    and the files found there. *)
Fixpoint dir_at (tree : DirTree) (rel : list string) (sub : DirTree) : Prop :=
  match rel with
  | [] => sub = tree
  | d :: rel' =>
      match tree with
      | Dir subdirs _ => ∃ t, In (d, t) subdirs ∧ dir_at t rel' sub
      end
  end.

Definition files_of (tree : DirTree) : list string :=
  match tree with
  | Dir _ files => files
  end.

Definition file_at (tree : DirTree) (rel : list string) (f : string) : Prop :=
  ∃ sub, dir_at tree rel sub ∧ In f (files_of sub).

(** The paths [cleanup_backups] tries to remove, in order. *)
Definition backups_listed (root : Path) (tree : DirTree) : list Path :=
  flat_map
    (λ '(r, _, files),
       map (λ f, r ++ [f])
           (List.filter (λ f, endswith f ".codex.bak") files))
    (walk_all root tree).

(** One removal of [cleanup_backups] after the other. *)
Definition sweep (removable : Path → bool) (targets : list Path)
    (st : gmap Path string * nat) : gmap Path string * nat :=
  foldl (λ st q, remove_counted removable q st) st targets.

(** The history file after a sequence of runs, each one updating it. *)
Definition after_runs (host : Host) (writable : bool)
    (summaries : list RunSummary) (file : HistoryFile) : HistoryFile :=
  foldl (λ file summary,
           (compare_and_update_history host summary writable file).2)
        file summaries.

(** A console that takes every line. *)
Definition takes_all (host : Host) : Prop := ∀ line, prints host line = true.


(** What every entry of a map under construction satisfies. *)
Definition entry_ok (tool_map : list (string * JVal)) (kv : string * JVal) : Prop :=
  ∃ kept tools,
    kv.2 = JList kept ∧ kept ≠ [] ∧ Forall has_required_keys kept ∧
    (kv.1, JList tools) ∈ tool_map ∧ sublist kept tools.

(** ** More concrete inputs *)

Module Samples.

(** A tool map as a configuration file may give it: an entry without its
    keys, a language without entries, a language that is not a list, and
    an entry that is a string naming the four keys. *)
Definition pylint_entry : JVal :=
  ConfigLoader.tool_entry "pylint" ["pylint"; "--score=n"] true false.

Definition mixed_tool_map : list (string * JVal) :=
  [ ("python", JList [pylint_entry; JDict [("tool", JStr "black")]]);
    ("go", JList []);
    ("rust", JStr "cargo clippy");
    ("text", JList [JStr "tool command check fix"]) ].

Definition mixed_tool_map_validated : list (string * JVal) :=
  [ ("python", JList [pylint_entry]);
    ("text", JList [JStr "tool command check fix"]) ].

(** The first configuration file is missing, the second adds a directory
    to skip. *)
Definition config_files : list ConfigLoader.ConfigFile :=
  [ ConfigLoader.Absent;
    ConfigLoader.Object
      [ ("app_settings",
         JDict [("skip_dirs", JList [JStr "vendor"]); ("max_workers", JNum 8)]) ] ].

(** A tree with backups left behind, one of them in a skipped directory. *)
Definition tree_with_backups : DirTree :=
  Dir [ ("node_modules", Dir [] ["x.js.codex.bak"; "x.js"]) ]
      ["a.py"; "a.py.codex.bak"].

Definition littered : Host :=
  Scenario.host_of ["pylint"] (λ _, true) Scenario.well_behaved
    tree_with_backups.

Definition littered_disk : gmap Path string :=
  list_to_map
    [ (["a.py"], "x = 1"); (["a.py.codex.bak"], "x=1");
      (["node_modules"; "x.js"], "var x");
      (["node_modules"; "x.js.codex.bak"], "var  x") ].

Definition passed_result : AnalysisResult :=
  {| file_path := "a.py"; language := "Python"; success := true;
     errors := []; warnings := []; was_fixed := true |}.

Definition failed_result : AnalysisResult :=
  {| file_path := "src/some/deep/package/module_with_a_long_name.py";
     language := "Python"; success := false;
     errors := ["e1"; "e2"; "e3"; "e4"]; warnings := []; was_fixed := false |}.

Definition run_of (now : string) (n_failed : Z) : RunSummary :=
  {| timestamp := now; total_files := 2; passed := 2 - n_failed;
     failed := n_failed; fixed := 1 |}.

(** The tree once the backups are gone. *)
Definition swept : Host :=
  Scenario.host_of ["pylint"] (λ _, true) Scenario.well_behaved
    (Dir [ ("node_modules", Dir [] ["x.js"]) ] ["a.py"]).

(** A history file written by hand: the last run has no count of failed
    files. *)
Definition odd_history : HistoryFile :=
  History [ {| s_timestamp := JStr "t0"; s_total_files := JNum 2;
               s_passed := JNum 2; s_failed := JNull; s_fixed := JNum 0 |} ].

End Samples.


(** * Properties *)

(** ** The lock registry *)

Section LockRegistry.

Variable host : Host.

Lemma registry_ok_new : registry_ok new_manager.
Proof. split; intros *; cbn; rewrite lookup_empty; discriminate. Qed.

Lemma get_lock_ok p cm : registry_ok cm → registry_ok (get_lock host p cm).2.
Proof.
  intros [Hlt Hinj]. unfold get_lock.
  destruct (_locks cm !! resolve host p) as [l|] eqn:E; [by split|].
  split; cbn.
  - intros k l. rewrite lookup_insert.
    case_decide; [intros [= <-]; lia | intros Hk%Hlt; lia].
  - intros k1 k2 l. rewrite !lookup_insert.
    repeat case_decide; subst; try congruence.
    + intros Ha Hb. apply Hlt in Hb. simplify_eq. lia.
    + intros Ha Hb. apply Hlt in Ha. simplify_eq. lia.
    + apply Hinj.
Qed.

Lemma after_calls_ok ps cm : registry_ok cm → registry_ok (after_calls host ps cm).
Proof.
  revert cm. induction ps as [|p ps IH]; intros cm H; [done|].
  cbn. apply IH, get_lock_ok, H.
Qed.

Lemma get_lock_registered p cm :
  _locks (get_lock host p cm).2 !! resolve host p = Some (get_lock host p cm).1.
Proof.
  unfold get_lock.
  destruct (_locks cm !! resolve host p) as [l|] eqn:E; cbn; [done|].
  apply lookup_insert_eq.
Qed.

Lemma get_lock_keeps p cm k l :
  _locks cm !! k = Some l → _locks (get_lock host p cm).2 !! k = Some l.
Proof.
  intros H. unfold get_lock.
  destruct (_locks cm !! resolve host p) as [l'|] eqn:E; cbn; [done|].
  rewrite lookup_insert_ne; [done | congruence].
Qed.

Lemma after_calls_keeps ps cm k l :
  _locks cm !! k = Some l → _locks (after_calls host ps cm) !! k = Some l.
Proof.
  revert cm. induction ps as [|p ps IH]; intros cm H; [done|].
  cbn. by apply IH, get_lock_keeps.
Qed.

(** C8. From a new registry, after any calls, take a lock for [p1], let
    any further calls happen, and take a lock for [p2]: the two locks are
    the same lock exactly when [p1] and [p2] resolve to the same absolute
    path. *)
Theorem get_lock_same_iff_same_resolved (before between : list Path) (p1 p2 : Path) :
  let cm0 := after_calls host before new_manager in
  let cm1 := (get_lock host p1 cm0).2 in
  let cm2 := after_calls host between cm1 in
  (get_lock host p1 cm0).1 = (get_lock host p2 cm2).1
  ↔ resolve host p1 = resolve host p2.
Proof.
  intros cm0 cm1 cm2.
  assert (Hok : registry_ok (get_lock host p2 cm2).2).
  { apply get_lock_ok, after_calls_ok, get_lock_ok, after_calls_ok,
      registry_ok_new. }
  assert (H1 : _locks (get_lock host p2 cm2).2 !! resolve host p1
               = Some (get_lock host p1 cm0).1).
  { apply get_lock_keeps, after_calls_keeps, get_lock_registered. }
  pose proof (get_lock_registered p2 cm2) as H2.
  split.
  - intros E. rewrite E in H1. by apply (proj2 Hok _ _ _ H1 H2).
  - intros E. rewrite E in H1. congruence.
Qed.

End LockRegistry.

(** ** What a tool invocation leaves in the trace *)

Lemma events_since_app w w' evs :
  trace w' = trace w ++ evs → events_since w w' = evs.
Proof. intros H. unfold events_since. rewrite H. apply drop_app_length. Qed.

Ltac run_tool_cases H :=
  unfold _run_tool, copyfile in H;
  repeat (case_match; simplify_eq/=; try done).

Section Invocation.

Variable host : Host.
Variable config : AppConfig.

Lemma run_tool_trace p tc b w r w' :
  _run_tool host config p tc b w = (r, w') →
  concurrency_manager w' = concurrency_manager w ∧
  ((w' = w ∧ match r with Raise _ => True | Ok (c, _, _) => c = (-1)%Z end)
   ∨ ∃ cmd oc out err,
       trace w' = trace w ++ [EvRun (tc_tool tc) cmd b oc] ∧
       r = Ok (result_code oc, out, err) ∧
       (b = false → ∀ rc o e, oc = Exited rc o e → out = o ∧ err = e)).
Proof.
  intros H. run_tool_cases H;
    (split; [done|]);
    first [ by left
          | right; do 4 eexists; (split; [reflexivity|]); split;
            [reflexivity | intros; simplify_eq; done] ].
Qed.

End Invocation.

Lemma exited_zero_code tool cmd b oc :
  exited_zero (EvRun tool cmd b oc) = true → result_code oc = 0%Z.
Proof. destruct oc; cbn; [lia | done | done]. Qed.

Lemma filter_fixer_runs_all evs :
  Forall (λ e, is_fixer_run e = true) evs → List.filter is_fixer_run evs = evs.
Proof. induction 1 as [|e evs He _ IH]; cbn; [done|]. by rewrite He, IH. Qed.

Lemma filter_fixer_runs_none evs :
  Forall (λ e, is_checker_run e = true) evs → List.filter is_fixer_run evs = [].
Proof.
  induction 1 as [|e evs He _ IH]; cbn; [done|].
  destruct e as [? ? [] ?| |]; cbn in *; done.
Qed.

Section Loops.

Variable host : Host.
Variable config : AppConfig.

(** The fixing loop only adds fixer runs; when the first of them exited
    0 it is the only one and the loop answers [True]. *)
Lemma fix_loop_trace p tools w r w' :
  fix_loop host config p tools w = (r, w') →
  concurrency_manager w' = concurrency_manager w ∧
  ∃ evs, trace w' = trace w ++ evs ∧
    Forall (λ e, is_fixer_run e = true) evs ∧
    (∀ e rest, evs = e :: rest → exited_zero e = true →
               rest = [] ∧ r = Ok true).
Proof.
  revert w. induction tools as [|tc rest IH]; intros w H; cbn in H.
  - simplify_eq. split; [done|]. exists []. by rewrite app_nil_r.
  - destruct (tc_fix tc && command_truthy (tc_command tc)); [|by apply IH].
    destruct (_run_tool host config p tc true w) as [r1 w1] eqn:E.
    apply run_tool_trace in E
      as [Hcm [[-> Hr] | (cmd & oc & out & err & Htr & -> & _)]].
    + destruct r1 as [[[c o] e]|e].
      * subst c. cbn in H. by apply IH.
      * simplify_eq. split; [done|]. exists []. by rewrite app_nil_r.
    + destruct (result_code oc =? 0)%Z eqn:Ec.
      * simplify_eq. split; [done|]. eexists. split; [exact Htr|].
        split; [by repeat constructor|]. intros ? ? [= <- <-] _. done.
      * apply IH in H as [Hcm' (evs & Htr' & Hall & _)].
        split; [congruence|]. eexists (_ :: evs).
        split; [by rewrite Htr', Htr, <- app_assoc|].
        split; [by constructor|].
        intros ? ? [= <- <-] Hz%exited_zero_code. lia.
Qed.

(** The analysis loop only adds checker runs; when all of them are clean
    it appends no error. *)
Lemma check_loop_trace p tools errs warns w r w' :
  check_loop host config p tools errs warns w = (r, w') →
  concurrency_manager w' = concurrency_manager w ∧
  ∃ evs, trace w' = trace w ++ evs ∧
    Forall (λ e, is_checker_run e = true) evs ∧
    (Forall (λ e, clean_if_checker e = true) evs →
     ∀ errs' warns', r = Ok (errs', warns') → errs' = errs).
Proof.
  revert errs warns w.
  induction tools as [|tc rest IH]; intros errs warns w H; cbn in H.
  - simplify_eq. split; [done|]. exists []. rewrite app_nil_r.
    repeat split; [done|]. intros _ ? ? [= -> ->]. done.
  - destruct (tc_check tc && command_truthy (tc_command tc)); [|eapply IH, H].
    destruct (_run_tool host config p tc false w) as [r1 w1] eqn:E.
    apply run_tool_trace in E
      as [Hcm [[-> Hr] | (cmd & oc & out & err & Htr & -> & Htxt)]].
    + destruct r1 as [[[c o] e]|e].
      * subst c. cbn in H. eapply IH, H.
      * simplify_eq. split; [done|]. exists []. rewrite app_nil_r.
        repeat split; [done|]. intros _ ? ?. discriminate.
    + assert (Hclean : clean_if_checker (EvRun (tc_tool tc) cmd false oc) = true →
                       (result_code oc =? -1)%Z = false ∧
                       negb (result_code oc =? 0)%Z || PyStr.truthy err = false).
      { destruct oc as [rc o e| |]; cbn; try done.
        destruct (Htxt eq_refl rc o e eq_refl) as [-> ->].
        intros [Hrc He]%andb_prop. apply Z.eqb_eq in Hrc. subst rc.
        cbn. by destruct (PyStr.truthy e). }
      assert (Hstep : ∀ errs1 warns1,
        check_loop host config p rest errs1 warns1 w1 = (r, w') →
        (Forall (λ e, clean_if_checker e = true)
                (EvRun (tc_tool tc) cmd false oc :: []) → errs1 = errs) →
        concurrency_manager w' = concurrency_manager w ∧
        ∃ evs, trace w' = trace w ++ evs ∧
          Forall (λ e, is_checker_run e = true) evs ∧
          (Forall (λ e, clean_if_checker e = true) evs →
           ∀ errs' warns', r = Ok (errs', warns') → errs' = errs)).
      { intros errs1 warns1 Hl Herrs.
        apply IH in Hl as [Hcm' (evs & Htr' & Hall & Hkeep)].
        split; [congruence|]. eexists (_ :: evs).
        split; [by rewrite Htr', Htr, <- app_assoc|].
        split; [by constructor|].
        intros Hc errs' warns' Hr. inversion Hc as [|? ? Hc1 Hc2]; subst.
        rewrite <- Herrs; [by eapply Hkeep | by repeat constructor]. }
      destruct (result_code oc =? -1)%Z eqn:Enf; [by eapply Hstep|].
      destruct (negb (result_code oc =? 0)%Z || PyStr.truthy err) eqn:Efail;
        [|by eapply Hstep].
      destruct (PyStr.splitlines (out +:+ err)); (eapply Hstep; [exact H|]);
        intros Hc; inversion Hc as [|? ? Hc1 _]; subst;
        apply Hclean in Hc1 as [_ ?]; congruence.
Qed.


End Loops.

(** ** The per-file pipeline *)

Section FileProcessor.

Variable host : Host.
Variable config : AppConfig.
Variable tool_map : gmap string (list ToolConfig).

Lemma events_since_same w : events_since w w = [].
Proof. unfold events_since. apply drop_all. Qed.

(** The shape of what [process_file] adds to the trace for a supported
    file: the lock events around the fixer runs, then the checker runs. *)
Lemma process_file_trace p lang tools w r w' :
  language_tools tool_map p = Some (lang, tools) →
  process_file host config tool_map p w = (r, w') →
  (∀ e rest, List.filter is_fixer_run (events_since w w') = e :: rest →
     exited_zero e = true →
     rest = [] ∧ ∀ res, r = Ok res → was_fixed res = true) ∧
  (∀ res, r = Ok res →
     (success res = true ↔ errors res = []) ∧
     (Forall (λ e, clean_if_checker e = true) (events_since w w') →
      errors res = [])).
Proof.
  intros Hlang H. unfold process_file in H. rewrite Hlang in H.
  destruct (fix_mode config).
  - destruct (get_lock host p (concurrency_manager w)) as [l cm].
    destruct (fix_loop host config p tools _) as [rf wf] eqn:Ef.
    apply fix_loop_trace in Ef as [_ (evs1 & Htr1 & Hall1 & Hfirst)].
    cbn in Htr1.
    destruct rf as [fixed|e].
    + destruct (check_loop host config p tools [] [] _) as [rc wc] eqn:Ec.
      apply check_loop_trace in Ec as [_ (evs2 & Htr2 & Hall2 & Hclean)].
      cbn in Htr2. rewrite Htr1 in Htr2.
      assert (Hev : events_since w w'
                    = [EvAcquire l] ++ evs1 ++ [EvRelease l] ++ evs2).
      { apply events_since_app.
        destruct rc as [[? ?]|?]; simplify_eq; rewrite Htr2;
          by rewrite <- !app_assoc. }
      rewrite Hev, !List.filter_app. cbn.
      rewrite (filter_fixer_runs_all _ Hall1), (filter_fixer_runs_none _ Hall2).
      rewrite app_nil_r. split.
      * intros e rest Hevs Hz. destruct (Hfirst _ _ Hevs Hz) as [-> [= ->]].
        split; [done|]. intros res Hres.
        destruct rc as [[? ?]|?]; by simplify_eq.
      * intros res Hres. destruct rc as [[errs warns]|?]; simplify_eq. cbn.
        split; [by destruct errs|]. intros Hc. eapply Hclean; [|done].
        inversion Hc as [|? ? _ Hc1]; subst.
        apply Forall_app in Hc1 as [_ Hc2].
        by inversion Hc2.
    + assert (Hev : events_since w w' = [EvAcquire l] ++ evs1 ++ [EvRelease l]).
      { apply events_since_app. simplify_eq. cbn. rewrite Htr1.
        by rewrite <- !app_assoc. }
      simplify_eq.
      rewrite Hev, !List.filter_app. cbn.
      rewrite (filter_fixer_runs_all _ Hall1), app_nil_r. split.
      * intros ? ? Hevs Hz. by destruct (Hfirst _ _ Hevs Hz) as [_ ?].
      * intros ? [=].
  - destruct (check_loop host config p tools [] [] w) as [rc wc] eqn:Ec.
    apply check_loop_trace in Ec as [_ (evs2 & Htr2 & Hall2 & Hclean)].
    assert (Hev : events_since w w' = evs2).
    { apply events_since_app. destruct rc as [[? ?]|?]; by simplify_eq. }
    rewrite Hev, (filter_fixer_runs_none _ Hall2). split; [done|].
    intros res Hres. destruct rc as [[errs warns]|?]; simplify_eq. cbn.
    split; [by destruct errs|]. intros Hc. by eapply Hclean.
Qed.

(** The guard of [process_file]: the languages of [ext_map] are truthy,
    so a file is turned away exactly when its suffix is not a key of
    [ext_map] or its language is not a key of [tool_map]. *)
Lemma language_tools_none p :
  language_tools tool_map p = None ↔
  (ext_map !! PyPath.suffix p = None ∨
   ∃ lang, ext_map !! PyPath.suffix p = Some lang ∧ tool_map !! lang = None).
Proof.
  unfold language_tools.
  destruct (ext_map !! PyPath.suffix p) as [lang|] eqn:E; [|by split; [left|]].
  assert (PyStr.truthy lang = true) as ->.
  { apply (elem_of_list_to_map_2 (M:=gmap string)) in E.
    repeat (apply elem_of_cons in E as [E'|E]; [by injection E' as _ ->|]).
    by apply elem_of_nil in E. }
  destruct (tool_map !! lang) eqn:Et; split; try done.
  - intros [?|(? & ? & ?)]; simplify_eq.
  - right. eauto.
Qed.

(** C6. A file whose suffix is not mapped, or whose language has no entry
    in the tool map, gets at once the failure result "Unsupported
    language/extension" with [success] and [was_fixed] false, and the world
    is left as it was: no process was spawned and no lock was taken. *)
Theorem unsupported_file_fails_at_once (p : Path) (w : World) :
  (ext_map !! PyPath.suffix p = None ∨
   ∃ lang, ext_map !! PyPath.suffix p = Some lang ∧ tool_map !! lang = None) →
  process_file host config tool_map p w =
    (Ok {| file_path := PyPath.path_str p; language := "Unknown";
           success := false; errors := ["Unsupported language/extension"];
           warnings := []; was_fixed := false |}, w).
Proof.
  intros H%language_tools_none. unfold process_file. by rewrite H.
Qed.



(** C5. A result has [success] true exactly when its error list is empty,
    whatever its warnings; and for a file whose language has a tool list,
    when every checker that ran exited 0 with an empty standard error the
    result has [success] true. *)
Theorem success_iff_no_errors (p : Path) (w w' : World) (res : AnalysisResult) :
  process_file host config tool_map p w = (Ok res, w') →
  (success res = true ↔ errors res = []) ∧
  (is_Some (language_tools tool_map p) →
   Forall (λ e, clean_if_checker e = true) (events_since w w') →
   success res = true).
Proof.
  intros H.
  destruct (language_tools tool_map p) as [[lang tools]|] eqn:El.
  - destruct (process_file_trace _ _ _ _ _ _ El H) as [_ Hres].
    destruct (Hres res eq_refl) as [Hiff Hclean].
    split; [done|]. intros _ Hc. by apply Hiff, Hclean.
  - unfold process_file in H. rewrite El in H. simplify_eq. cbn.
    split; [done|]. by intros [? ?].
Qed.

(** What the analysis loop does with a failing checker whose result code is
    not -1 (its code is not 0 or its standard error is not empty): it goes
    on with errors appended, the single line "Exit code <code> from <tool>"
    when stdout+stderr has no line, and otherwise the first 5 lines at
    most, each tagged with the tool's name. *)
Lemma failing_checker_error_lines (p : Path) (tc : ToolConfig)
    (rest : list ToolConfig) (errs warns : list string) (w w1 : World)
    (code : Z) (out err : string) :
  tc_check tc = true →
  command_truthy (tc_command tc) = true →
  _run_tool host config p tc false w = (Ok (code, out, err), w1) →
  code ≠ (-1)%Z →
  code ≠ 0%Z ∨ err ≠ "" →
  ∃ new,
    check_loop host config p (tc :: rest) errs warns w
      = check_loop host config p rest (errs ++ new) warns w1 ∧
    match PyStr.splitlines (out +:+ err) with
    | [] => new = ["Exit code " +:+ pretty code +:+ " from " +:+ tc_tool tc]
    | lines => new = map (tagged (tc_tool tc)) (take 5 lines) ∧
               1 ≤ length new ≤ 5
    end.
Proof.
  intros Hc Ht Hrun Hnf Hfail. cbn. rewrite Hc, Ht, Hrun. cbn.
  assert ((code =? -1)%Z = false) as -> by by apply Z.eqb_neq.
  assert (negb (code =? 0)%Z || PyStr.truthy err = true) as ->.
  { destruct Hfail as [?|He].
    - assert ((code =? 0)%Z = false) as -> by by apply Z.eqb_neq. done.
    - destruct err; [done|]. cbn. apply orb_true_r. }
  destruct (PyStr.splitlines (out +:+ err)) as [|l ls] eqn:El.
  - eexists. split; reflexivity.
  - eexists. split; [reflexivity|]. split; [reflexivity|].
    rewrite length_map, length_take.
    change (length (l :: ls)) with (S (length ls)). lia.
Qed.

(** What the analysis loop does with a checker that is not installed: it
    goes on with one warning appended and the errors as they were. *)
Lemma missing_checker_only_warns (p : Path) (tc : ToolConfig)
    (rest : list ToolConfig) (errs warns : list string) (w : World)
    (argv : list string) :
  tc_check tc = true →
  tc_command tc = CmdList argv →
  command_truthy (tc_command tc) = true →
  is_Some (PyPath.with_suffix_appended p ".codex.bak") →
  which host (hd "" (argv ++ [PyPath.path_str p])) = false →
  check_loop host config p (tc :: rest) errs warns w
  = check_loop host config p rest errs
      (warns ++ [tc_tool tc +:+ " not available. Install it."]) w.
Proof.
  intros Hc Hcmd Ht [backup Hb] Hw. cbn. rewrite Hc, Ht. cbn.
  unfold _run_tool. by rewrite Hcmd, Hb, Hw.
Qed.

End FileProcessor.

(** ** The tool runner: backup and rollback *)

Lemma string_app_same (s m : string) : s +:+ m = s → m = "".
Proof. induction s as [|a s IH]; cbn; [done|]. intros [= H]. auto. Qed.

(** The backup is a sibling of the file, and another file. *)
Lemma backup_path_other (p backup : Path) :
  PyPath.with_suffix_appended p ".codex.bak" = Some backup → backup ≠ p.
Proof.
  unfold PyPath.with_suffix_appended.
  destruct (PyStr.truthy (PyPath.name p)) eqn:Hn; [|done].
  intros [= <-] Heq.
  assert (Hp : p ≠ []) by (intros ->; done).
  assert (Hname : PyPath.name p = List.last p "").
  { unfold PyPath.name in *. by destruct (decide (p = ["/"])). }
  rewrite (app_removelast_last "" Hp) in Heq at 3.
  apply app_inv_head in Heq. injection Heq as Heq.
  rewrite Hname in Heq. by apply string_app_same in Heq.
Qed.

Section ToolRunner.

Variable host : Host.
Variable config : AppConfig.

Lemma move_source_gone (src dst : Path) (d : gmap Path string) :
  src ≠ dst → exists_on d src = true → move src dst d !! src = None.
Proof.
  intros Hne. unfold exists_on, move.
  destruct (d !! src) eqn:E; [|done]. intros _.
  rewrite lookup_insert_ne; [|done]. apply lookup_delete_eq.
Qed.

Lemma move_target (src dst : Path) (d : gmap Path string) c :
  d !! src = Some c → move src dst d !! dst = Some c.
Proof. intros E. unfold move. rewrite E. apply lookup_insert_eq. Qed.

Lemma not_exists_on (d : gmap Path string) p :
  exists_on d p = false → d !! p = None.
Proof. unfold exists_on. by destruct (d !! p). Qed.

(** C10, as amended. For a fixer whose tool is found, whatever the
    process does (exit 0, non-zero exit, timeout, failure to run), the
    backup file does not exist when [_run_tool] returns. When the tool is
    not found, [_run_tool] returns with the world as it was. *)
Theorem backup_gone_when_tool_ran (p backup : Path) (tc : ToolConfig)
    (w w' : World) (res : Z * string * string) :
  PyPath.with_suffix_appended p ".codex.bak" = Some backup →
  _run_tool host config p tc true w = (Ok res, w') →
  (tool_found host p tc = true → disk w' !! backup = None) ∧
  (tool_found host p tc = false → w' = w).
Proof.
  intros Hb H. pose proof (backup_path_other _ _ Hb) as Hne.
  unfold tool_found. unfold _run_tool in H.
  destruct (tc_command tc) as [argv|s]; [|done].
  rewrite Hb in H.
  destruct (which host _) eqn:Hw; cbn in H; [|by simplify_eq].
  split; [intros _|done].
  destruct (subprocess_run host _ _ _ _ _) as [oc d2].
  destruct oc as [rc out err| |msg]; cbn in H;
    repeat (case_match; simplify_eq/=);
    first [ by apply move_source_gone
          | by apply lookup_delete_eq
          | by apply not_exists_on
          | idtac ].
  apply andb_prop in H0 as [_ Hex]. by apply move_source_gone.
Qed.

(** C2, as amended. A fixer is run on a file with content [content]; the
    backup copy can be created, and when the tool returns the backup still
    holds [content]. If the tool failed (non-zero exit code, timeout, or
    failure to run), then when [_run_tool] returns the file holds
    [content] again and the backup is gone. *)
Theorem failed_fixer_rolls_back (p backup : Path) (tc : ToolConfig)
    (argv : list string) (content : string) (oc : ProcOutcome)
    (d2 : gmap Path string) (w w' : World) (r : Res (Z * string * string)) :
  tc_command tc = CmdList argv →
  PyPath.with_suffix_appended p ".codex.bak" = Some backup →
  which host (hd "" (argv ++ [PyPath.path_str p])) = true →
  disk w !! p = Some content →
  can_create host backup = true →
  subprocess_run host (length (trace w)) (argv ++ [PyPath.path_str p])
    (PyPath.parent p) (default (default_timeout config) (tc_timeout tc))
    (<[backup := content]> (disk w)) = (oc, d2) →
  d2 !! backup = Some content →
  result_code oc ≠ 0%Z →
  _run_tool host config p tc true w = (r, w') →
  disk w' !! p = Some content ∧ disk w' !! backup = None ∧
  ∃ out err, r = Ok (result_code oc, out, err).
Proof.
  intros Hcmd Hb Hw Hc Hcreate Hrun Hkept Hfail H.
  pose proof (backup_path_other _ _ Hb) as Hne.
  assert (Hex : exists_on d2 backup = true) by (unfold exists_on; by rewrite Hkept).
  unfold _run_tool, copyfile in H.
  rewrite Hcmd, Hb, Hw, Hc, Hcreate in H. cbn in H. rewrite Hrun in H.
  destruct oc as [rc out err| |msg]; cbn in H, Hfail; rewrite Hex in H.
  - assert ((rc =? 0)%Z = false) as Hrc by by apply Z.eqb_neq.
    rewrite Hrc in H. cbn in H. simplify_eq. cbn.
    split; [by apply move_target|]. split; [by apply move_source_gone|]. eauto.
  - simplify_eq. cbn.
    split; [by apply move_target|]. split; [by apply move_source_gone|]. eauto.
  - simplify_eq. cbn.
    split; [by apply move_target|]. split; [by apply move_source_gone|]. eauto.
Qed.

End ToolRunner.

(** ** The directory scanner *)

(** Induction on a directory tree, with the property known of every
    sub-directory. *)
Lemma DirTree_nested_ind (P : DirTree → Prop) :
  (∀ subdirs files, Forall (λ d, P d.2) subdirs → P (Dir subdirs files)) →
  ∀ t, P t.
Proof.
  intros H. fix IH 1. intros [subdirs files]. apply H.
  induction subdirs as [|[d sub] ds IHds]; constructor; [apply IH | apply IHds].
Qed.

Section Walk.

Variable host : Host.
Variable config : AppConfig.

(** Every directory the walk yields is reached from the root through
    directories whose names are not in the skip-set, and the
    sub-directories it keeps there are not in the skip-set either. *)
Lemma walk_never_enters_skipped (tree : DirTree) :
  ∀ root r dirs files,
    In (r, dirs, files) (walk config root tree) →
    ∃ rel, r = root ++ rel ∧
           Forall (λ d, d ∉ skip_dirs config) rel ∧
           Forall (λ d, d ∉ skip_dirs config) dirs.
Proof.
  induction tree as [subdirs fs IH] using DirTree_nested_ind.
  intros root r dirs files. cbn. intros [Hhd|Htl].
  - simplify_eq. exists []. rewrite app_nil_r. split; [done|].
    split; [constructor|]. unfold prune.
    apply Forall_forall. by intros d [? _]%list_elem_of_filter.
  - induction IH as [|[d sub] ds Hsub _ IHds]; [done|].
    cbn in Htl. case_bool_decide as Hskip; [by apply IHds|].
    apply in_app_or in Htl as [Hin|Hin]; [|by apply IHds].
    destruct (Hsub _ _ _ _ Hin) as (rel & -> & Hrel & Hdirs).
    exists (d :: rel). rewrite <- app_assoc. split; [done|].
    split; [by constructor | done].
Qed.

(** A collected file lies in a directory the walk yielded, and its suffix
    is a key of [ext_map]. *)
Lemma files_to_scan_spec (target p : Path) :
  In p (files_to_scan host config target) →
  ∃ rel f, p = target ++ rel ++ [f] ∧
           Forall (λ d, d ∉ skip_dirs config) rel ∧
           is_Some (ext_map !! PyPath.name_suffix f).
Proof.
  unfold files_to_scan. intros Hin.
  apply in_flat_map in Hin as ([[root dirs] files] & Hw & Hin).
  apply in_map_iff in Hin as (f & <- & Hf).
  apply list_elem_of_In, list_elem_of_filter in Hf as [Hext _].
  apply walk_never_enters_skipped in Hw as (rel & -> & Hrel & _).
  exists rel, f. by rewrite <- app_assoc.
Qed.

End Walk.

(** ** The worker pool *)

Lemma completion_order_perm (fuel : nat) :
  ∀ (choices : list nat) (pending : list Path),
    length pending ≤ fuel →
    completion_order choices pending fuel ≡ₚ pending.
Proof.
  induction fuel as [|fuel IH]; intros choices pending Hlen.
  - destruct pending; [done | cbn in Hlen; lia].
  - destruct pending as [|first rest]; [done|].
    cbn [completion_order].
    set (l := first :: rest) in *.
    set (k := hd 0 choices mod length l).
    assert (Hk : k < length l) by (apply Nat.mod_upper_bound; done).
    destruct (lookup_lt_is_Some_2 l k Hk) as [x Hx].
    rewrite (nth_lookup_Some _ _ _ _ Hx).
    etrans; [|symmetry; apply (delete_Permutation l k x Hx)].
    constructor. apply IH. rewrite length_delete by eauto.
    subst l. cbn in *. lia.
Qed.

Section Pool.

Variable host : Host.
Variable config : AppConfig.
Variable tool_map : gmap string (list ToolConfig).

Lemma gather_ok (futures : list (Res AnalysisResult)) :
  ∀ acc results, gather host config futures acc = Ok results →
    ∃ rs, results = acc ++ rs ∧ futures = map Ok rs ∧
          Forall (λ r, prints host (progress_line config r) = true) rs.
Proof.
  induction futures as [|[res|e] futures IH]; intros acc results H; cbn in H.
  - simplify_eq. exists []. by rewrite app_nil_r.
  - destruct (prints host (progress_line config res)) eqn:Hp; [|done].
    apply IH in H as (rs & -> & -> & Hall). exists (res :: rs).
    rewrite <- app_assoc. split; [done|]. split; [done | by constructor].
  - done.
Qed.

Lemma gather_raise (futures : list (Res AnalysisResult)) :
  ∀ acc e, gather host config futures acc = Raise e →
    (∃ finished rest, futures = map Ok finished ++ Raise e :: rest) ∨
    (∃ finished res rest,
       futures = map Ok finished ++ Ok res :: rest ∧
       prints host (progress_line config res) = false).
Proof.
  induction futures as [|[res|e'] futures IH]; intros acc e H; cbn in H.
  - done.
  - destruct (prints host (progress_line config res)) eqn:Hp.
    + apply IH in H as [(finished & rest & ->)|(finished & res' & rest & -> & ?)].
      * left. by exists (res :: finished), rest.
      * right. by exists (res :: finished), res', rest.
    + right. by exists [], res, futures.
  - simplify_eq. left. by exists [], futures.
Qed.


Lemma process_file_path p w res w' :
  process_file host config tool_map p w = (Ok res, w') →
  file_path res = PyPath.path_str p.
Proof.
  unfold process_file. intros H.
  repeat (case_match; simplify_eq/=); done.
Qed.

Lemma run_pool_spec (order : list Path) :
  ∀ w, Forall2 (λ f fut, ∀ res, fut = Ok res → file_path res = PyPath.path_str f)
         order (run_pool host config tool_map order w).1.
Proof.
  induction order as [|f rest IH]; intros w; cbn; [constructor|].
  destruct (process_file host config tool_map f w) as [r w1] eqn:E.
  specialize (IH w1).
  destruct (run_pool host config tool_map rest w1) as [rs w2]. cbn in *.
  constructor; [|done]. intros res ->. by eapply process_file_path.
Qed.

Lemma futures_paths (order : list Path) (results : list AnalysisResult) :
  Forall2 (λ f fut, ∀ res, fut = Ok res → file_path res = PyPath.path_str f)
    order (map Ok results) →
  map file_path results = map PyPath.path_str order.
Proof.
  revert order. induction results as [|res results IH]; intros order H;
    inversion H as [|f fut order' futs Hf Hrest]; subst; cbn; [done|].
  by rewrite (Hf res eq_refl), (IH _ Hrest).
Qed.

(** Every submitted file gets a future. *)
Lemma pool_futures_length target w :
  length (pool_futures host config tool_map target w)
  = length (files_to_scan host config target).
Proof.
  unfold pool_futures.
  rewrite <- (Forall2_length _ _ _ (run_pool_spec _ w)).
  by rewrite (completion_order_perm _ (picks host) _ (Nat.le_refl _)).
Qed.

(** When no task raised, the results are those of the submitted files. *)
Lemma pool_futures_paths target w results :
  pool_futures host config tool_map target w = map Ok results →
  length results = length (files_to_scan host config target) ∧
  map file_path results
  ≡ₚ map PyPath.path_str (files_to_scan host config target).
Proof.
  intros Hf. split.
  - by rewrite <- (pool_futures_length target w), Hf, length_map.
  - pose proof (run_pool_spec
      (completion_order (picks host) (files_to_scan host config target)
         (length (files_to_scan host config target))) w) as Hspec.
    unfold pool_futures in Hf. rewrite Hf in Hspec.
    rewrite (futures_paths _ _ Hspec).
    apply fmap_Permutation, completion_order_perm. done.
Qed.

(** What [scan_directory] answers once the pool is made. *)
Lemma scan_directory_submitted target w :
  prints host (FoundFiles (length (files_to_scan host config target))) = true →
  (0 < max_workers config)%Z →
  (scan_directory host config tool_map target w).1
  = match gather host config (pool_futures host config tool_map target w) [] with
    | Raise e => Raise e
    | Ok results =>
        if prints host (Static 316) then Ok results else Raise not_encodable
    end.
Proof.
  intros Hfound Hmw. unfold scan_directory, pool_futures. rewrite Hfound.
  cbn [negb]. destruct (Z.leb_spec (max_workers config) 0) as [?|_]; [lia|].
  destruct (run_pool _ _ _ _ _) as [futures w']. cbn [fst].
  destruct (gather host config futures []); [|done].
  by destruct (prints host (Static 316)).
Qed.

(** What is known of a scan that returned. *)
Lemma scan_directory_ok target w results w' :
  scan_directory host config tool_map target w = (Ok results, w') →
  prints host (FoundFiles (length (files_to_scan host config target))) = true ∧
  (0 < max_workers config)%Z ∧
  pool_futures host config tool_map target w = map Ok results ∧
  Forall (λ r, prints host (progress_line config r) = true) results ∧
  prints host (Static 316) = true.
Proof.
  intros H.
  assert (Hfound : prints host
            (FoundFiles (length (files_to_scan host config target))) = true).
  { unfold scan_directory in H.
    by destruct (prints host (FoundFiles _)). }
  assert (Hmw : (0 < max_workers config)%Z).
  { unfold scan_directory in H. rewrite Hfound in H. cbn [negb] in H.
    by destruct (Z.leb_spec (max_workers config) 0). }
  pose proof (scan_directory_submitted target w Hfound Hmw) as Hs.
  rewrite H in Hs. cbn [fst] in Hs.
  destruct (gather host config _ []) as [rs|e] eqn:Eg; [|done].
  destruct (prints host (Static 316)); [|done]. simplify_eq.
  apply gather_ok in Eg as (rs' & -> & Hf & Hall). done.
Qed.


(** C9. The walk only yields directories reached through names that are
    not in the skip-set, and every result of a scan is the result of a
    file that lies under the root through such directories only: no file
    beneath a directory named in the skip-set is in the results. *)
Theorem skipped_directories_never_scanned (target : Path) :
  (∀ r dirs files,
     In (r, dirs, files) (walk config target (listing host target)) →
     ∃ rel, r = target ++ rel ∧ Forall (λ d, d ∉ skip_dirs config) rel) ∧
  (∀ w w' results res,
     scan_directory host config tool_map target w = (Ok results, w') →
     In res results →
     ∃ rel f,
       In (target ++ rel ++ [f]) (files_to_scan host config target) ∧
       file_path res = PyPath.path_str (target ++ rel ++ [f]) ∧
       Forall (λ d, d ∉ skip_dirs config) rel).
Proof.
  split.
  - intros r dirs files Hin.
    apply walk_never_enters_skipped in Hin as (rel & -> & Hrel & _). eauto.
  - intros w w' results res Hscan Hin.
    apply scan_directory_ok in Hscan as (_ & _ & Hf & _).
    apply pool_futures_paths in Hf as [_ Hperm].
    assert (Hp : In (file_path res)
                    (map PyPath.path_str (files_to_scan host config target))).
    { apply list_elem_of_In. rewrite <- Hperm.
      apply list_elem_of_In, in_map, Hin. }
    apply in_map_iff in Hp as (p & Hstr & Hp).
    destruct (files_to_scan_spec _ _ _ _ Hp) as (rel & f & -> & Hrel & _).
    exists rel, f. eauto.
Qed.

End Pool.


(** * The properties on concrete runs *)

Import Scenario.

(** A clean Python file, check only: one result, success. *)
Example clean_file_passes :
  (process_file everything_clean check_only DEFAULT_TOOL_MAP a_py original).1
  = Ok {| file_path := "a.py"; language := "Python"; success := true;
          errors := []; warnings := []; was_fixed := false |}.
Proof. vm_compute. reflexivity. Qed.

(** Fix mode, a fixer that exits 0 and a clean checker: fixed, success,
    and no backup left. *)
Example fixed_file_passes :
  let '(r, w') :=
    process_file everything_clean fixing DEFAULT_TOOL_MAP a_py original in
  r = Ok {| file_path := "a.py"; language := "Python"; success := true;
            errors := []; warnings := []; was_fixed := true |} ∧
  disk w' !! a_py = Some "formatted" ∧
  disk w' !! a_py_backup = None.
Proof. vm_compute. repeat split; reflexivity. Qed.

(** The files collected under a root with vendored directories. *)
Example vendored_files_are_not_collected :
  files_to_scan vendored check_only [] = [["a.py"]; ["src"; "b.py"]].
Proof. vm_compute. reflexivity. Qed.

(** Two spellings of one file get one lock, another file another lock. *)
Example same_file_same_lock :
  let cm1 := (get_lock everything_clean ["src"; ".."; "a.py"] new_manager).2 in
  let cm2 := (get_lock everything_clean ["b.py"] cm1).2 in
  (get_lock everything_clean ["src"; ".."; "a.py"] new_manager).1 = 0 ∧
  (get_lock everything_clean ["b.py"] cm1).1 = 1 ∧
  (get_lock everything_clean ["a.py"] cm2).1 = 0.
Proof. vm_compute. repeat split; reflexivity. Qed.

(** A scan of two files with the default tools: two results. *)
Example scan_two_files :
  (scan_directory two_languages check_only DEFAULT_TOOL_MAP [] original).1
  = Ok [ {| file_path := "a.py"; language := "Python"; success := true;
            errors := []; warnings := []; was_fixed := false |};
         {| file_path := "b.js"; language := "Javascript"; success := true;
            errors := []; warnings := []; was_fixed := false |} ].
Proof. vm_compute. reflexivity. Qed.


(** The two other ways out of a scan. With no worker the pool is not made
    and no task is run. With a console that cannot take the mark of a
    result, the first progress line of a verbose scan raises; the tasks
    have run all the same, and without [verbose] the scan returns. *)
Example scan_without_a_pool_or_a_console :
  scan_directory two_languages no_worker DEFAULT_TOOL_MAP [] original
  = (Raise (ValueError "max_workers must be greater than 0"), original) ∧
  (scan_directory two_languages_ascii chatty DEFAULT_TOOL_MAP [] original).1
  = Raise not_encodable ∧
  length (trace (scan_directory two_languages_ascii chatty DEFAULT_TOOL_MAP []
                   original).2) = 2 ∧
  (scan_directory two_languages_ascii check_only DEFAULT_TOOL_MAP [] original).1
  = (scan_directory two_languages check_only DEFAULT_TOOL_MAP [] original).1.
Proof. vm_compute. repeat split; reflexivity. Qed.

(** C2, as stated, fails, in two ways. First run: the backup cannot be
    created, the fixer damages the file and exits 1; nothing is restored.
    Second run: the first fixer fails and is rolled back, then the second
    fixer exits 0 and rewrites the file; when [process_file] returns, the
    file is not what it was before the failed fixer ran. *)
Lemma failed_fixer_file_not_restored :
  (let w' := (process_file black_fails_no_backup fixing DEFAULT_TOOL_MAP
                a_py original).2 in
   List.filter is_fixer_run (events_since original w')
   = [EvRun "black" ["black"; "-q"; "a.py"] true (Exited 1 "" "cannot format")] ∧
   disk original !! a_py = Some "original" ∧
   disk w' !! a_py = Some "damaged") ∧
  (let w' := (process_file black_fails_autopep8_works fixing two_fixers
                a_py original).2 in
   List.filter is_fixer_run (events_since original w')
   = [EvRun "black" ["black"; "-q"; "a.py"] true (Exited 1 "" "cannot format");
      EvRun "autopep8" ["autopep8"; "--in-place"; "a.py"] true (Exited 0 "" "")] ∧
   disk original !! a_py = Some "original" ∧
   disk w' !! a_py = Some "formatted").
Proof. vm_compute. repeat split; reflexivity. Qed.

(** The amended C2 on a run: the backup is made, the fixer damages the file
    and exits 1, and the file is restored. *)
Lemma failed_fixer_rolls_back_witness :
  disk (_run_tool black_fails fixing a_py black true original).2 !! a_py
  = Some "original".
Proof.
  refine (proj1 (failed_fixer_rolls_back black_fails fixing a_py a_py_backup
            black ["black"; "-q"] "original" (Exited 1 "" "cannot format")
            (<[a_py := "damaged"]> (<[a_py_backup := "original"]> (disk original)))
            original _ (_run_tool black_fails fixing a_py black true original).1
            _ _ _ _ _ _ _ _ _)).
  - reflexivity.
  - vm_compute. reflexivity.
  - vm_compute. reflexivity.
  - vm_compute. reflexivity.
  - reflexivity.
  - reflexivity.
  - vm_compute. reflexivity.
  - simpl. lia.
  - vm_compute. reflexivity.
Defined.

(** C3 fails on the code. The checker runs and is ended by signal 1, so
    [subprocess.run] gives the return code -1: [_run_tool] answers with the
    code it also gives for a tool that is not installed, and [process_file]
    records the warning of a missing tool, no error, and success. *)
Lemma killed_checker_reads_as_missing_tool :
  (let '(r, w') := _run_tool pylint_killed check_only a_py pylint false original in
   r = Ok ((-1)%Z, "", "") ∧
   events_since original w'
   = [EvRun "pylint" ["pylint"; "--output-format=json"; "--score=n"; "a.py"]
        false (Exited (-1) "" "")]) ∧
  (let '(r, w') :=
     _run_tool nothing_installed check_only a_py pylint false original in
   r = Ok ((-1)%Z, "", "Tool 'pylint' not found in system path.") ∧
   events_since original w' = []) ∧
  (process_file pylint_killed check_only DEFAULT_TOOL_MAP a_py original).1
  = Ok {| file_path := "a.py"; language := "Python"; success := true;
          errors := [];
          warnings := ["pylint not available. Install it."];
          was_fixed := false |}.
Proof. vm_compute. repeat split; reflexivity. Qed.



(** C5 on a run: the checker exits 0 and prints nothing, the result has
    [success] true. *)
Lemma success_iff_no_errors_witness :
  ∃ res,
    (process_file everything_clean check_only DEFAULT_TOOL_MAP a_py original).1
    = Ok res ∧
    success res = true.
Proof.
  eexists. split; [vm_compute; reflexivity|].
  refine (proj2 (success_iff_no_errors everything_clean check_only
            DEFAULT_TOOL_MAP a_py original
            (process_file everything_clean check_only DEFAULT_TOOL_MAP
               a_py original).2 _ _) _ _).
  - vm_compute. reflexivity.
  - eexists. vm_compute. reflexivity.
  - vm_compute. repeat constructor.
Defined.

(** C6 on two runs: a suffix that is not mapped, and a mapped suffix whose
    language has no tools. *)
Lemma unsupported_file_fails_at_once_witness :
  process_file everything_clean fixing DEFAULT_TOOL_MAP ["README.md"] original
  = (Ok {| file_path := "README.md"; language := "Unknown"; success := false;
           errors := ["Unsupported language/extension"]; warnings := [];
           was_fixed := false |}, original) ∧
  process_file everything_clean fixing DEFAULT_TOOL_MAP ["cmd"; "main.go"] original
  = (Ok {| file_path := "cmd/main.go"; language := "Unknown"; success := false;
           errors := ["Unsupported language/extension"]; warnings := [];
           was_fixed := false |}, original).
Proof.
  split.
  - apply (unsupported_file_fails_at_once everything_clean fixing
             DEFAULT_TOOL_MAP ["README.md"] original).
    left. vm_compute. reflexivity.
  - apply (unsupported_file_fails_at_once everything_clean fixing
             DEFAULT_TOOL_MAP ["cmd"; "main.go"] original).
    right. exists "go". split; vm_compute; reflexivity.
Defined.

(** A checker that is not installed: a warning and no error. *)
Example missing_checker_gets_a_warning :
  _run_tool nothing_installed check_only a_py pylint false original
  = (Ok ((-1)%Z, "", "Tool 'pylint' not found in system path."), original) ∧
  check_loop nothing_installed check_only a_py [pylint] [] [] original
  = (Ok ([], ["pylint not available. Install it."]), original).
Proof. vm_compute. repeat split; reflexivity. Qed.

(** A checker that prints seven lines and exits 1: the first five are
    appended, tagged. *)
Example noisy_checker_five_lines :
  ∃ new,
    check_loop pylint_noisy check_only a_py [pylint] [] [] original
    = check_loop pylint_noisy check_only a_py [] ([] ++ new) []
        (_run_tool pylint_noisy check_only a_py pylint false original).2 ∧
    new = ["[pylint] l1"; "[pylint] l2"; "[pylint] l3"; "[pylint] l4";
           "[pylint] l5"].
Proof.
  destruct (failing_checker_error_lines pylint_noisy check_only a_py pylint
              [] [] [] original
              (_run_tool pylint_noisy check_only a_py pylint false original).2
              1%Z seven_findings ""
              ltac:(reflexivity) ltac:(reflexivity)
              ltac:(vm_compute; reflexivity) ltac:(lia) ltac:(left; lia))
    as (new & Hloop & Hnew).
  exists new. split; [exact Hloop|].
  change (PyStr.splitlines (seven_findings +:+ ""))
    with ["l1"; "l2"; "l3"; "l4"; "l5"; "l6"; "l7"] in Hnew.
  exact (proj1 Hnew).
Qed.

(** C7 fails on the code. The checker runs, prints nothing and is ended by
    signal 1: its exit code, -1, is not 0 and its output has no line, so
    the claim asks for the one error line "Exit code -1 from pylint". The
    loop appends no error; it appends the warning of a missing tool. *)
Lemma killed_checker_gets_no_error_line :
  (let '(r, w') := _run_tool pylint_killed check_only a_py pylint false original in
   r = Ok ((-1)%Z, "", "") ∧
   events_since original w'
   = [EvRun "pylint" ["pylint"; "--output-format=json"; "--score=n"; "a.py"]
        false (Exited (-1) "" "")]) ∧
  PyStr.splitlines ("" +:+ "") = [] ∧
  (check_loop pylint_killed check_only a_py [pylint] [] [] original).1
  = Ok ([], ["pylint not available. Install it."]).
Proof. vm_compute. repeat split; reflexivity. Qed.

(** C10, as stated, fails. A backup left by an earlier run is on disk and
    the fixer is not installed: [_run_tool] returns, and the backup is
    still there. *)
Lemma stale_backup_survives_missing_tool :
  PyPath.with_suffix_appended a_py ".codex.bak" = Some a_py_backup ∧
  _run_tool nothing_installed fixing a_py black true stale_backup
  = (Ok ((-1)%Z, "", "Tool 'black' not found in system path."), stale_backup) ∧
  disk stale_backup !! a_py_backup = Some "stale".
Proof. vm_compute. repeat split; reflexivity. Qed.

(** The amended C10 on a run: the fixer is installed and fails; the backup,
    stale or new, is gone when [_run_tool] returns. *)
Lemma backup_gone_when_tool_ran_witness :
  disk (_run_tool black_fails fixing a_py black true stale_backup).2
    !! a_py_backup = None.
Proof.
  refine (proj1 (backup_gone_when_tool_ran black_fails fixing a_py a_py_backup
            black stale_backup _ (1%Z, "", "Fix failed; rolled back changes. cannot format")
            _ _) _).
  - vm_compute. reflexivity.
  - vm_compute. reflexivity.
  - vm_compute. reflexivity.
Defined.


(** C8 on a run: [src/../a.py] and [a.py] resolve to one path and get one
    lock, with a call for another file in between. *)
Lemma get_lock_same_iff_same_resolved_witness :
  (get_lock everything_clean ["src"; ".."; "a.py"] new_manager).1
  = (get_lock everything_clean ["a.py"]
       (after_calls everything_clean [["b.py"]]
          (get_lock everything_clean ["src"; ".."; "a.py"] new_manager).2)).1.
Proof.
  apply (proj2 (get_lock_same_iff_same_resolved everything_clean []
                  [["b.py"]] ["src"; ".."; "a.py"] ["a.py"])).
  vm_compute. reflexivity.
Defined.

(** C9 on a run: under a root with [node_modules] at two depths, the
    result for [src/b.py] is reached through [src] only. *)
Lemma skipped_directories_never_scanned_witness :
  ∃ rel f,
    In ([] ++ rel ++ [f]) (files_to_scan vendored check_only []) ∧
    "src/b.py" = PyPath.path_str ([] ++ rel ++ [f]) ∧
    Forall (λ d, d ∉ skip_dirs check_only) rel.
Proof.
  refine (proj2 (skipped_directories_never_scanned vendored check_only
                   DEFAULT_TOOL_MAP []) original
            (scan_directory vendored check_only DEFAULT_TOOL_MAP [] original).2
            [ {| file_path := "a.py"; language := "Python"; success := true;
                 errors := []; warnings := []; was_fixed := false |};
              {| file_path := "src/b.py"; language := "Python"; success := true;
                 errors := []; warnings := []; was_fixed := false |} ]
            {| file_path := "src/b.py"; language := "Python"; success := true;
               errors := []; warnings := []; was_fixed := false |} _ _).
  - vm_compute. reflexivity.
  - right. left. reflexivity.
Defined.

(** * The configuration loader *)

Section Validation.

Import ConfigLoader.

Lemma key_in_raises k v :
  (∃ e, key_in k v = Raise e) ↔ is_scalar v = true.
Proof. destruct v; cbn; split; try done; try (intros [? ?]; done); eauto. Qed.

Lemma all_keys_in_raises v :
  (∃ e, all_keys_in required_keys v = Raise e) ↔ is_scalar v = true.
Proof.
  split.
  - intros [e H]. destruct v; cbn in *; try done;
      repeat (case_match; simplify_eq/=; try done).
  - intros H. destruct v; cbn in *; try done; eauto.
Qed.

Lemma valid_tools_of_cons td tools :
  valid_tools_of (td :: tools)
  = match all_keys_in required_keys td with
    | Raise e => Raise e
    | Ok keep =>
        match valid_tools_of tools with
        | Raise e => Raise e
        | Ok valid_tools => Ok (if keep then td :: valid_tools else valid_tools)
        end
    end.
Proof. reflexivity. Qed.

Lemma valid_tools_of_ok tools kept :
  valid_tools_of tools = Ok kept →
  sublist kept tools ∧ Forall has_required_keys kept.
Proof.
  revert kept. induction tools as [|td tools IH]; intros kept H.
  - cbn in H. simplify_eq. split; constructor.
  - rewrite valid_tools_of_cons in H.
    destruct (all_keys_in required_keys td) as [keep|] eqn:Ek; [|done].
    destruct (valid_tools_of tools) as [vs|]; [|done].
    destruct (IH vs eq_refl) as [Hs Hf]. simplify_eq.
    destruct keep.
    + split; [by constructor | by constructor].
    + split; [by constructor | done].
Qed.

Lemma valid_tools_of_raises tools :
  (∃ e, valid_tools_of tools = Raise e) ↔ Exists (λ td, is_scalar td = true) tools.
Proof.
  induction tools as [|td tools IH].
  - cbn. split; [intros [? ?]; done | inversion 1].
  - rewrite valid_tools_of_cons.
    destruct (all_keys_in required_keys td) as [keep|e] eqn:Ek.
    + assert (Hns : is_scalar td ≠ true).
      { intros Hs%all_keys_in_raises. destruct Hs as [? Hs]. congruence. }
      destruct (valid_tools_of tools) as [vs|e'].
      * split; [intros [? ?]; done|].
        intros [?|Hex]%Exists_cons; [done|].
        apply IH in Hex as [? ?]. done.
      * split; [intros _; apply Exists_cons_tl, IH; eauto | eauto].
    + split; [|eauto]. intros _. apply Exists_cons_hd, all_keys_in_raises. eauto.
Qed.

Lemma valid_tools_of_fixed kept :
  Forall has_required_keys kept → valid_tools_of kept = Ok kept.
Proof.
  induction 1 as [|td kept Hk _ IH]; [done|].
  rewrite valid_tools_of_cons. unfold has_required_keys in Hk.
  by rewrite Hk, IH.
Qed.

Lemma elem_of_dict_set {V} k (v : V) d kv :
  kv ∈ dict_set k v d → kv = (k, v) ∨ kv ∈ d.
Proof.
  induction d as [|[k' v'] d IH]; cbn.
  - intros ->%list_elem_of_singleton. by left.
  - case_decide.
    + intros [->|?]%elem_of_cons; [by left|]. right. by constructor.
    + intros [->|H']%elem_of_cons; [right; constructor|].
      destruct (IH H') as [?|?]; [by left|]. right. by constructor.
Qed.

Lemma dict_set_fresh {V} k (v : V) d :
  k ∉ map fst d → dict_set k v d = d ++ [(k, v)].
Proof.
  induction d as [|[k' v'] d IH]; cbn; [done|].
  intros Hn. apply not_elem_of_cons in Hn as [Hne Hn].
  case_decide; [congruence|]. by rewrite IH.
Qed.

Lemma dict_set_keys {V} k (v : V) d :
  NoDup (map fst d) → NoDup (map fst (dict_set k v d)).
Proof.
  induction d as [|[k' v'] d IH]; cbn.
  - intros _. repeat constructor. inversion 1.
  - intros [Hn Hd]%NoDup_cons. case_decide; cbn.
    + subst. by constructor.
    + constructor; [|by apply IH].
      intros Hin. apply Hn. clear -Hin H.
      induction d as [|[k2 v2] d IH]; cbn in *.
      * apply list_elem_of_singleton in Hin. congruence.
      * case_decide; cbn in *; [subst|].
        -- apply elem_of_cons in Hin as [->|?]; [left | by right].
        -- apply elem_of_cons in Hin as [->|?]; [left | right; auto].
Qed.

Lemma validate_from_ok items :
  ∀ tool_map acc valid_map,
    (∀ kv, kv ∈ items → kv ∈ tool_map) →
    validate_from items acc = Ok valid_map →
    Forall (entry_ok tool_map) acc ∧ NoDup (map fst acc) →
    Forall (entry_ok tool_map) valid_map ∧ NoDup (map fst valid_map).
Proof.
  induction items as [|[lang tools] items IH];
    intros tool_map acc valid_map Hsub H Hacc; cbn in H.
  - by simplify_eq.
  - assert (Hsub' : ∀ kv, kv ∈ items → kv ∈ tool_map).
    { intros kv Hin. apply Hsub. by right. }
    destruct tools as [| | | |tool_defs|]; try by eapply IH.
    destruct (valid_tools_of tool_defs) as [[|t ts]|] eqn:Ev; [by eapply IH| |done].
    eapply IH; [done | exact H |].
    destruct Hacc as [Hall Hnd]. split; [|by apply dict_set_keys].
    apply Forall_forall. intros kv [->|Hin]%elem_of_dict_set.
    + apply valid_tools_of_ok in Ev as [Hs Hf].
      exists (t :: ts), tool_defs. repeat split; try done.
      apply Hsub. left.
    + by eapply Forall_forall in Hall.
Qed.

(** X1. What [_validate_tool_map] returns is well formed: every language
    it keeps has a list of entries that is not empty, every entry has the
    four required keys, and the entries are entries the given map has for
    that language, in the same order. No language is kept twice. *)
Theorem validated_map_well_formed (tool_map valid_map : list (string * JVal)) :
  _validate_tool_map tool_map = Ok valid_map →
  NoDup (map fst valid_map) ∧
  ∀ lang v, (lang, v) ∈ valid_map →
    ∃ kept tools,
      v = JList kept ∧ kept ≠ [] ∧ Forall has_required_keys kept ∧
      (lang, JList tools) ∈ tool_map ∧ sublist kept tools.
Proof.
  intros H.
  destruct (validate_from_ok tool_map tool_map [] valid_map) as [Hall Hnd];
    [done | exact H | split; constructor |].
  split; [done|]. intros lang v Hin.
  by apply (proj1 (Forall_forall _ _) Hall (lang, v)).
Qed.

Lemma validate_from_fixed items :
  ∀ acc,
    NoDup (map fst acc ++ map fst items) →
    Forall (λ kv, ∃ kept, kv.2 = JList kept ∧ kept ≠ [] ∧
                          Forall has_required_keys kept) items →
    validate_from items acc = Ok (acc ++ items).
Proof.
  induction items as [|[lang v] items IH]; intros acc Hnd Hall; cbn.
  - by rewrite app_nil_r.
  - inversion Hall as [|? ? (kept & Hv & Hne & Hk) Hall']; subst. cbn in Hv. subst v.
    rewrite (valid_tools_of_fixed _ Hk). destruct kept as [|t ts]; [done|].
    cbn in Hnd. apply NoDup_app in Hnd as (Ha & Hdis & Hi).
    apply NoDup_cons in Hi as [Hl Hi].
    rewrite dict_set_fresh by (intros Hin; by apply (Hdis _ Hin); left).
    rewrite IH; [by rewrite <- app_assoc | | done].
    rewrite map_app. cbn. rewrite <- app_assoc. cbn.
    apply NoDup_app. split; [done|]. split; [|by constructor].
    intros x Hx. by apply Hdis.
Qed.

(** X2. Validation is idempotent: a map that [_validate_tool_map] returned
    is returned unchanged when it is validated again. *)
Theorem validate_tool_map_idempotent (tool_map valid_map : list (string * JVal)) :
  _validate_tool_map tool_map = Ok valid_map →
  _validate_tool_map valid_map = Ok valid_map.
Proof.
  intros H.
  destruct (validate_from_ok tool_map tool_map [] valid_map) as [Hall Hnd];
    [done | exact H | split; constructor |].
  unfold _validate_tool_map. rewrite validate_from_fixed; [done | done |].
  eapply Forall_impl; [exact Hall|].
  intros [lang v] (kept & tools & Hv & Hne & Hk & _). eauto.
Qed.

Lemma validate_from_raises items :
  ∀ acc,
    (∃ e, validate_from items acc = Raise e) ↔
    Exists (λ kv, ∃ tools, kv.2 = JList tools ∧
                           Exists (λ td, is_scalar td = true) tools) items.
Proof.
  induction items as [|[lang v] items IH]; intros acc; cbn.
  - split; [intros [? ?]; done | inversion 1].
  - assert (Hskip : ∀ acc',
      (∀ tools, v = JList tools → ¬ Exists (λ td, is_scalar td = true) tools) →
      (∃ e, validate_from items acc' = Raise e) ↔
      Exists (λ kv, ∃ tools, kv.2 = JList tools ∧
                             Exists (λ td, is_scalar td = true) tools)
        ((lang, v) :: items)).
    { intros acc' Hno. rewrite IH. split; [by apply Exists_cons_tl|].
      intros [(tools & Hv & Hex)|?]%Exists_cons; [|done].
      cbn in Hv. by destruct (Hno tools Hv). }
    destruct v as [| | | |tool_defs|]; try (apply Hskip; intros ? [=]).
    destruct (valid_tools_of tool_defs) as [vs|e] eqn:Ev.
    + assert (Hno : ∀ tools, JList tool_defs = JList tools →
                             ¬ Exists (λ td, is_scalar td = true) tools).
      { intros tools [= <-] Hex%valid_tools_of_raises.
        destruct Hex as [? Hex]. congruence. }
      destruct vs; by apply Hskip.
    + split; [|eauto]. intros _. apply Exists_cons_hd. exists tool_defs.
      split; [done|]. apply valid_tools_of_raises. eauto.
Qed.

(** X3. [_validate_tool_map] raises exactly when some language has a list
    with an entry that is a number, a boolean or null; every other map is
    validated. *)
Theorem validate_tool_map_raises_iff (tool_map : list (string * JVal)) :
  (∃ e, _validate_tool_map tool_map = Raise e) ↔
  ∃ lang tools tool_def,
    (lang, JList tools) ∈ tool_map ∧ tool_def ∈ tools ∧
    is_scalar tool_def = true.
Proof.
  unfold _validate_tool_map. rewrite validate_from_raises, Exists_exists.
  split.
  - intros ([lang v] & Hin & tools & Hv & Hex). cbn in Hv. subst v.
    apply Exists_exists in Hex as (td & Htd & Hs). eauto 6.
  - intros (lang & tools & td & Hin & Htd & Hs).
    exists (lang, JList tools). split; [done|]. exists tools. split; [done|].
    apply Exists_exists. eauto.
Qed.

End Validation.

(** X4. Whatever the configuration files hold, a configuration that
    [load] returns skips the default directories and has fix mode and
    verbose mode off; a walk with its skip-set never goes below a directory
    with one of the default names. *)
Theorem load_keeps_default_skips (files : list ConfigLoader.ConfigFile)
    (loaded : ConfigLoader.LoadedConfig) (valid_map : list (string * JVal)) :
  ConfigLoader.load files = ConfigLoader.LoadOk loaded valid_map →
  ConfigLoader.DEFAULT_SKIP ⊆ ConfigLoader.lc_skip_dirs loaded ∧
  ConfigLoader.lc_fix_mode loaded = false ∧
  ConfigLoader.lc_verbose loaded = false ∧
  ∀ config target tree r dirs fs,
    skip_dirs config = ConfigLoader.lc_skip_dirs loaded →
    In (r, dirs, fs) (walk config target tree) →
    ∃ rel, r = target ++ rel ∧
           Forall (λ d, d ∉ ConfigLoader.DEFAULT_SKIP) rel.
Proof.
  unfold ConfigLoader.load. intros H.
  destruct (default _ (dict_get "app_settings" _)) as [| | | | |settings];
    try done.
  destruct (ConfigLoader.set_of _) as [e|skip]; [done|].
  destruct (default _ (dict_get "language_tools" _)) as [| | | | |langs];
    try done.
  destruct (ConfigLoader._validate_tool_map langs); [|done].
  injection H as <- <-. cbn.
  split; [apply union_subseteq_r|]. split; [done|]. split; [done|].
  intros config target tree r dirs fs Hskip Hin.
  apply walk_never_enters_skipped in Hin as (rel & -> & Hrel & _).
  exists rel. split; [done|].
  eapply Forall_impl; [exact Hrel|]. intros d Hd Hdef. apply Hd.
  rewrite Hskip. apply elem_of_union. by right.
Qed.

(** * The lock registry, continued *)

Section RegistrySize.

Variable host : Host.

Lemma get_lock_size p cm :
  created cm = size (_locks cm) →
  created (get_lock host p cm).2 = size (_locks (get_lock host p cm).2) ∧
  dom (_locks (get_lock host p cm).2) = dom (_locks cm) ∪ {[ resolve host p ]}.
Proof.
  intros Hsz. unfold get_lock.
  destruct (_locks cm !! resolve host p) as [l|] eqn:E; cbn.
  - split; [done|]. apply elem_of_dom_2 in E. set_solver.
  - split; [by rewrite map_size_insert_None, Hsz|].
    rewrite dom_insert_L. set_solver.
Qed.

(** X5. The registry holds one lock for each distinct resolved path it
    was asked for, and nothing else: after any calls on a new registry, the
    number of locks created is the size of the map, and the keys of the map
    are the resolved paths of the calls. *)
Theorem registry_one_lock_per_resolved_path (ps : list Path) :
  let cm := after_calls host ps new_manager in
  created cm = size (_locks cm) ∧
  dom (_locks cm) = list_to_set (map (resolve host) ps).
Proof.
  cbn.
  assert (Hgen : ∀ cm0, created cm0 = size (_locks cm0) →
    created (after_calls host ps cm0) = size (_locks (after_calls host ps cm0)) ∧
    dom (_locks (after_calls host ps cm0))
    = dom (_locks cm0) ∪ list_to_set (map (resolve host) ps)).
  { induction ps as [|p ps IH]; intros cm0 Hsz.
    - cbn. split; [done|]. set_solver.
    - change (after_calls host (p :: ps) cm0)
        with (after_calls host ps (get_lock host p cm0).2).
      destruct (get_lock_size p cm0 Hsz) as [Hsz' Hdom].
      destruct (IH _ Hsz') as [Hs Hd]. split; [done|].
      rewrite Hd, Hdom. cbn. set_solver. }
  destruct (Hgen new_manager) as [Hs Hd]; [done|].
  split; [done|]. rewrite Hd. cbn. set_solver.
Qed.

End RegistrySize.

(** * The tool runner, continued *)

Section RunnerFrame.

Variable host : Host.
Variable config : AppConfig.

(** X6. The runner itself writes two paths only, the file and its backup:
    when a tool was run, in either role and whatever its outcome, every
    other path is on disk as the tool left it, and the tool was given every
    path but the backup as it was before the call. *)
Theorem run_tool_touches_file_and_backup_only (p backup : Path)
    (tc : ToolConfig) (argv : list string) (is_fixer : bool)
    (w w' : World) (r : Res (Z * string * string)) :
  tc_command tc = CmdList argv →
  PyPath.with_suffix_appended p ".codex.bak" = Some backup →
  which host (hd "" (argv ++ [PyPath.path_str p])) = true →
  _run_tool host config p tc is_fixer w = (r, w') →
  ∃ d_in oc d_out,
    subprocess_run host (length (trace w)) (argv ++ [PyPath.path_str p])
      (PyPath.parent p) (default (default_timeout config) (tc_timeout tc)) d_in
    = (oc, d_out) ∧
    (∀ q, q ≠ backup → d_in !! q = disk w !! q) ∧
    (∀ q, q ≠ p → q ≠ backup → disk w' !! q = d_out !! q) ∧
    (is_fixer = false → d_in = disk w ∧ disk w' = d_out).
Proof.
  intros Hcmd Hb Hw H. unfold _run_tool in H. rewrite Hcmd, Hb, Hw in H.
  cbn in H.
  set (d_in := if is_fixer then _ else _) in H.
  destruct (subprocess_run host _ _ _ _ d_in) as [oc d_out] eqn:Erun.
  exists d_in, oc, d_out. split; [done|].
  assert (Hin : ∀ q, q ≠ backup → d_in !! q = disk w !! q).
  { intros q Hq. subst d_in. destruct is_fixer; [|done].
    unfold copyfile. destruct (disk w !! p); [|done].
    destruct (can_create host backup); [|done].
    by rewrite lookup_insert_ne. }
  split; [done|].
  assert (Hmove : ∀ q, q ≠ p → q ≠ backup →
                       move backup p d_out !! q = d_out !! q).
  { intros q Hp Hq. unfold move. destruct (d_out !! backup); [|done].
    rewrite lookup_insert_ne by done. by rewrite lookup_delete_ne. }
  assert (Hrm : ∀ q, q ≠ backup → remove backup d_out !! q = d_out !! q).
  { intros q Hq. unfold remove. by rewrite lookup_delete_ne. }
  split.
  - intros q Hp Hq.
    destruct oc as [rc out err| |msg]; cbn in H.
    + destruct (is_fixer && negb (rc =? 0)%Z && exists_on d_out backup);
        [by simplify_eq; cbn; auto|].
      destruct (is_fixer && exists_on d_out backup); simplify_eq; cbn; auto.
    + destruct (is_fixer && exists_on d_out backup); simplify_eq; cbn; auto.
    + destruct (is_fixer && exists_on d_out backup); simplify_eq; cbn; auto.
  - intros ->. subst d_in. split; [done|].
    destruct oc; cbn in H; by simplify_eq.
Qed.

(** X7. A fixer that exits 0 is never rolled back: the result code is 0,
    the backup is removed, and every other path, the file among them, is on
    disk as the tool left it. *)
Theorem successful_fixer_keeps_tool_output (p backup : Path) (tc : ToolConfig)
    (argv : list string) (out err : string) (d_in d_out : gmap Path string)
    (w w' : World) (r : Res (Z * string * string)) :
  tc_command tc = CmdList argv →
  PyPath.with_suffix_appended p ".codex.bak" = Some backup →
  which host (hd "" (argv ++ [PyPath.path_str p])) = true →
  d_in = match copyfile host p backup (disk w) with
         | Some d => d
         | None => disk w
         end →
  subprocess_run host (length (trace w)) (argv ++ [PyPath.path_str p])
    (PyPath.parent p) (default (default_timeout config) (tc_timeout tc)) d_in
  = (Exited 0 out err, d_out) →
  _run_tool host config p tc true w = (r, w') →
  r = Ok (0%Z, out, err) ∧ disk w' = delete backup d_out.
Proof.
  intros Hcmd Hb Hw -> Hrun H. unfold _run_tool in H.
  rewrite Hcmd, Hb, Hw in H. cbn in H. rewrite Hrun in H. cbn in H.
  destruct (exists_on d_out backup) eqn:Hex; simplify_eq; cbn.
  - done.
  - split; [done|]. apply not_exists_on in Hex.
    symmetry. by apply delete_id.
Qed.

End RunnerFrame.

(** * The per-file pipeline, continued *)

Section PipelineShape.

Variable host : Host.
Variable config : AppConfig.
Variable tool_map : gmap string (list ToolConfig).

(** How the fixing loop ends: with [True] after fixer runs that all failed
    but the last, which exited 0; otherwise after fixer runs that all
    failed. *)
Lemma fix_loop_outcome p tools w r w' :
  fix_loop host config p tools w = (r, w') →
  ∃ evs, trace w' = trace w ++ evs ∧
    Forall (λ e, is_fixer_run e = true) evs ∧
    match r with
    | Ok true =>
        ∃ failed_runs e, evs = failed_runs ++ [e] ∧ exited_zero e = true ∧
                         Forall (λ e, exited_zero e = false) failed_runs
    | _ => Forall (λ e, exited_zero e = false) evs
    end.
Proof.
  revert w. induction tools as [|tc rest IH]; intros w H; cbn in H.
  - simplify_eq. exists []. rewrite app_nil_r. repeat split; constructor.
  - destruct (tc_fix tc && command_truthy (tc_command tc)); [|by apply IH].
    destruct (_run_tool host config p tc true w) as [r1 w1] eqn:E.
    apply run_tool_trace in E
      as [Hcm [[-> Hr] | (cmd & oc & out & err & Htr & -> & _)]].
    + destruct r1 as [[[c o] e]|e].
      * subst c. cbn in H. by apply IH.
      * simplify_eq. exists []. rewrite app_nil_r. repeat split; constructor.
    + destruct (result_code oc =? 0)%Z eqn:Ec.
      * simplify_eq. eexists. split; [exact Htr|].
        split; [by repeat constructor|].
        exists [], (EvRun (tc_tool tc) cmd true oc). split; [done|].
        split; [|constructor].
        destruct oc; cbn in *; [done | lia | lia].
      * apply IH in H as (evs & Htr' & Hall & Hend).
        assert (Hz : exited_zero (EvRun (tc_tool tc) cmd true oc) = false).
        { destruct oc; cbn in *; done. }
        eexists (_ :: evs).
        split; [by rewrite Htr', Htr, <- app_assoc|].
        split; [by constructor|].
        destruct r as [[]|]; [|by constructor..].
        destruct Hend as (failed_runs & e & -> & He & Hf).
        exists (EvRun (tc_tool tc) cmd true oc :: failed_runs), e.
        split; [done|]. split; [done | by constructor].
Qed.

(** X8. In fix mode the fix phase is done before the check phase starts,
    under the lock of the file: what a call on a supported file adds to the
    trace is the lock being taken, fixer runs, the lock being released, and
    then checker runs, also when the call raises; the lock is the one the
    registry has for the file, and the call leaves the registry with it. *)
Theorem fix_phase_precedes_check_phase (p : Path) (lang : string)
    (tools : list ToolConfig) (w w' : World) (r : Res AnalysisResult) :
  language_tools tool_map p = Some (lang, tools) →
  fix_mode config = true →
  process_file host config tool_map p w = (r, w') →
  concurrency_manager w' = (get_lock host p (concurrency_manager w)).2 ∧
  ∃ fix_evs chk_evs,
    events_since w w'
    = [EvAcquire (get_lock host p (concurrency_manager w)).1]
        ++ fix_evs
        ++ [EvRelease (get_lock host p (concurrency_manager w)).1]
        ++ chk_evs ∧
    Forall (λ e, is_fixer_run e = true) fix_evs ∧
    Forall (λ e, is_checker_run e = true) chk_evs.
Proof.
  intros Hlang Hfix H. unfold process_file in H. rewrite Hlang, Hfix in H.
  destruct (get_lock host p (concurrency_manager w)) as [l cm]. cbn.
  destruct (fix_loop host config p tools _) as [rf wf] eqn:Ef.
  apply fix_loop_trace in Ef as [Hcm1 (evs1 & Htr1 & Hall1 & _)].
  cbn in Htr1, Hcm1.
  destruct rf as [fixed_flag|e].
  - destruct (check_loop host config p tools [] [] _) as [rc wc] eqn:Ec.
    apply check_loop_trace in Ec as [Hcm2 (evs2 & Htr2 & Hall2 & _)].
    cbn in Htr2, Hcm2. rewrite Htr1 in Htr2.
    assert (w' = wc) as -> by (destruct rc as [[? ?]|?]; by simplify_eq).
    split; [congruence|]. exists evs1, evs2. split; [|done].
    apply events_since_app. rewrite Htr2. by rewrite <- !app_assoc.
  - simplify_eq. split; [done|]. exists evs1, []. split; [|by split].
    apply events_since_app. cbn. rewrite Htr1. by rewrite <- !app_assoc.
Qed.

(** X9. In check-only mode a call runs no fixer and takes no lock: all it
    adds to the trace are checker runs, and the lock registry is left as it
    was. *)
Theorem check_only_runs_checkers_only (p : Path) (w w' : World)
    (r : Res AnalysisResult) :
  fix_mode config = false →
  process_file host config tool_map p w = (r, w') →
  concurrency_manager w' = concurrency_manager w ∧
  Forall (λ e, is_checker_run e = true) (events_since w w').
Proof.
  intros Hfix H. unfold process_file in H. rewrite Hfix in H.
  destruct (language_tools tool_map p) as [[lang tools]|].
  - destruct (check_loop host config p tools [] [] w) as [rc wc] eqn:Ec.
    apply check_loop_trace in Ec as [Hcm (evs & Htr & Hall & _)].
    assert (w' = wc) as -> by (destruct rc as [[? ?]|?]; by simplify_eq).
    split; [done|]. by rewrite (events_since_app _ _ _ Htr).
  - simplify_eq. split; [done|]. rewrite events_since_same. constructor.
Qed.

(** X10. A result is marked as fixed only when a fixer really succeeded:
    fix mode is on, the last fixer run of the call exited 0, and every
    fixer run before it failed. *)
Theorem was_fixed_means_last_fixer_exited_zero (p : Path) (w w' : World)
    (res : AnalysisResult) :
  process_file host config tool_map p w = (Ok res, w') →
  was_fixed res = true →
  fix_mode config = true ∧
  ∃ failed_runs e,
    List.filter is_fixer_run (events_since w w') = failed_runs ++ [e] ∧
    exited_zero e = true ∧
    Forall (λ e, exited_zero e = false) failed_runs.
Proof.
  intros H Hfixed. unfold process_file in H.
  destruct (language_tools tool_map p) as [[lang tools]|];
    [|by simplify_eq].
  destruct (fix_mode config) eqn:Hfix.
  - split; [done|].
    destruct (get_lock host p (concurrency_manager w)) as [l cm].
    destruct (fix_loop host config p tools _) as [rf wf] eqn:Ef.
    apply fix_loop_outcome in Ef as (evs1 & Htr1 & Hall1 & Hend).
    cbn in Htr1.
    destruct rf as [fixed_flag|e]; [|done].
    destruct (check_loop host config p tools [] [] _) as [rc wc] eqn:Ec.
    apply check_loop_trace in Ec as [_ (evs2 & Htr2 & Hall2 & _)].
    cbn in Htr2. rewrite Htr1 in Htr2.
    destruct rc as [[errs warns]|?]; [|done]. simplify_eq. cbn in Hfixed.
    subst fixed_flag. destruct Hend as (failed_runs & e & -> & He & Hf).
    exists failed_runs, e. split; [|done].
    rewrite (events_since_app w w'
               ([EvAcquire l] ++ (failed_runs ++ [e]) ++ [EvRelease l] ++ evs2))
      by (rewrite Htr2; by rewrite <- !app_assoc).
    apply Forall_app in Hall1 as [Hf1 He1].
    rewrite !List.filter_app.
    rewrite (filter_fixer_runs_all _ Hf1), (filter_fixer_runs_all _ He1),
      (filter_fixer_runs_none _ Hall2).
    cbn. by rewrite app_nil_r.
  - destruct (check_loop host config p tools [] [] w) as [[[errs warns]|?] wc];
      by simplify_eq.
Qed.

(** What the analysis loop appends: for each checker entry at most five
    errors or one warning, never both. *)
Lemma check_loop_bound p tools :
  ∀ errs warns w errs' warns' w',
    check_loop host config p tools errs warns w = (Ok (errs', warns'), w') →
    length errs' + 5 * length warns'
    ≤ length errs + 5 * length warns
      + 5 * length (List.filter is_checker_entry tools).
Proof.
  induction tools as [|tc rest IH]; intros errs warns w errs' warns' w' H;
    cbn in H.
  - simplify_eq. cbn. lia.
  - cbn [List.filter]. unfold is_checker_entry at 1.
    destruct (tc_check tc && command_truthy (tc_command tc));
      [|by apply IH in H].
    cbn [length].
    destruct (_run_tool host config p tc false w) as [[[[code out] err]|e] w1];
      [|done].
    destruct (code =? -1)%Z.
    { apply IH in H. rewrite length_app in H. cbn in H. lia. }
    destruct (negb (code =? 0)%Z || PyStr.truthy err);
      [|apply IH in H; lia].
    destruct (PyStr.splitlines (out +:+ err)) as [|l ls] eqn:El.
    + apply IH in H. rewrite length_app in H. cbn in H. lia.
    + apply IH in H. rewrite length_app, length_map, length_take in H. lia.
Qed.

(** X11. A report is bounded by the configuration: with n checker entries
    for the language, a result has at most 5n error lines, and each warning
    stands for a checker that added no error (errors + 5 warnings is at
    most 5n). Fixers add neither: with no checker entry, every result the
    call returns has no error, no warning and [success] true. *)
Theorem errors_and_warnings_bounded (p : Path) (lang : string)
    (tools : list ToolConfig) (w w' : World) (res : AnalysisResult) :
  language_tools tool_map p = Some (lang, tools) →
  process_file host config tool_map p w = (Ok res, w') →
  length (errors res) + 5 * length (warnings res)
  ≤ 5 * length (List.filter is_checker_entry tools) ∧
  (List.filter is_checker_entry tools = [] →
   errors res = [] ∧ warnings res = [] ∧ success res = true).
Proof.
  intros Hlang H. unfold process_file in H. rewrite Hlang in H.
  assert (Hb : length (errors res) + 5 * length (warnings res)
               ≤ 5 * length (List.filter is_checker_entry tools)).
  { destruct (if fix_mode config then _ else _) as [[fixed_flag|e] w1];
      [|done].
    destruct (check_loop host config p tools [] [] w1)
      as [[[errs warns]|?] wc] eqn:Ec; [|done].
    apply check_loop_bound in Ec. simplify_eq. cbn in *. lia. }
  split; [done|]. intros Hnone. rewrite Hnone in Hb. cbn in Hb.
  assert (He : errors res = []) by (destruct (errors res); [done | cbn in Hb; lia]).
  assert (Hw : warnings res = []) by (destruct (warnings res); [done | cbn in Hb; lia]).
  split; [done|]. split; [done|].
  destruct (if fix_mode config then _ else _) as [[fixed_flag|e] w1]; [|done].
  destruct (check_loop host config p tools [] [] w1) as [[[errs warns]|?] wc];
    [|done].
  simplify_eq. cbn in *. by subst.
Qed.

End PipelineShape.

(** * The directory scanner, continued *)

Lemma string_length_app (s t : string) :
  String.length (s +:+ t) = String.length s + String.length t.
Proof.
  induction s as [|a s IH]; [done|].
  change (S (String.length (s +:+ t))
          = S (String.length s + String.length t)).
  by rewrite IH.
Qed.

Lemma drop_app_length (s t : string) (i : nat) :
  PyStr.drop (String.length s + i) (s +:+ t) = PyStr.drop i t.
Proof. induction s as [|a s IH]; [done | exact IH]. Qed.

Lemma drop_is_suffix (n : nat) (s : string) :
  ∃ pre, s = pre +:+ PyStr.drop n s.
Proof.
  revert s. induction n as [|n IH]; intros s; [by exists ""|].
  destruct s as [|a s]; [by exists ""|].
  destruct (IH s) as [pre Hpre]. exists (String a pre).
  change (String a s = String a (pre +:+ PyStr.drop n s)). by rewrite <- Hpre.
Qed.

Lemma rfind_app (c : Ascii.ascii) (s t : string) (i : nat) :
  PyStr.rfind c t = Some i →
  PyStr.rfind c (s +:+ t) = Some (String.length s + i).
Proof.
  intros H. induction s as [|a s IH]; [done|].
  change (match PyStr.rfind c (s +:+ t) with
          | Some i => Some (S i)
          | None => if Ascii.eqb a c then Some 0 else None
          end = Some (S (String.length s + i))).
  by rewrite IH.
Qed.

Lemma endswith_split (s suffix : string) :
  endswith s suffix = true ↔ ∃ pre, s = pre +:+ suffix.
Proof.
  unfold endswith. split.
  - intros [_ Heq]%andb_prop. apply String.eqb_eq in Heq.
    destruct (drop_is_suffix (String.length s - String.length suffix) s)
      as [pre Hpre].
    exists pre. by rewrite Heq in Hpre.
  - intros [pre ->]. rewrite string_length_app. apply andb_true_intro. split.
    + apply Nat.leb_le. lia.
    + replace (String.length pre + String.length suffix - String.length suffix)
        with (String.length pre + 0) by lia.
      rewrite drop_app_length. cbn. apply String.eqb_refl.
Qed.

(** The suffix of a backup name is [.bak]. *)
Lemma backup_name_suffix (nm : string) :
  PyPath.name_suffix (nm +:+ ".codex.bak") = ".bak".
Proof.
  unfold PyPath.name_suffix.
  rewrite (rfind_app "."%char nm ".codex.bak" 6 eq_refl).
  rewrite string_length_app. cbn [String.length].
  assert ((0 <? String.length nm + 6) && (String.length nm + 6 <? String.length nm + 10 - 1) = true) as ->.
  { apply andb_true_intro. split; apply Nat.ltb_lt; lia. }
  by rewrite drop_app_length.
Qed.

Section ScanComplete.

Variable host : Host.
Variable config : AppConfig.

Lemma walk_sound (tree : DirTree) :
  ∀ root r dirs files,
    In (r, dirs, files) (walk config root tree) →
    ∃ rel sd, r = root ++ rel ∧
              Forall (λ d, d ∉ skip_dirs config) rel ∧
              dir_at tree rel (Dir sd files).
Proof.
  induction tree as [subdirs fs IH] using DirTree_nested_ind.
  intros root r dirs files. cbn. intros [Hhd|Htl].
  - simplify_eq. exists [], subdirs. rewrite app_nil_r. by repeat split.
  - assert (Hgen : ∀ ds, Forall (λ d, ∀ root r dirs files,
        In (r, dirs, files) (walk config root d.2) →
        ∃ rel sd, r = root ++ rel ∧ Forall (λ d, d ∉ skip_dirs config) rel ∧
                  dir_at d.2 rel (Dir sd files)) ds →
      In (r, dirs, files)
         ((fix descend (ds : list (string * DirTree)) :=
             match ds with
             | [] => []
             | (d, sub) :: ds' =>
                 if bool_decide (d ∈ skip_dirs config) then descend ds'
                 else walk config (root ++ [d]) sub ++ descend ds'
             end) ds) →
      ∃ d t rel sd, In (d, t) ds ∧ (d ∉ skip_dirs config) ∧
                    r = (root ++ [d]) ++ rel ∧
                    Forall (λ d, d ∉ skip_dirs config) rel ∧
                    dir_at t rel (Dir sd files)).
    { clear. intros ds Hds. induction Hds as [|[d sub] ds Hsub _ IHds]; [done|].
      intros Hin. case_bool_decide as Hskip.
      - destruct (IHds Hin) as (d' & t & rel & sd & ? & ?).
        exists d', t, rel, sd. split; [by right | done].
      - apply in_app_or in Hin as [Hin|Hin].
        + destruct (Hsub _ _ _ _ Hin) as (rel & sd & ? & ? & ?).
          exists d, sub, rel, sd. split; [by left | done].
        + destruct (IHds Hin) as (d' & t & rel & sd & ? & ?).
          exists d', t, rel, sd. split; [by right | done]. }
    destruct (Hgen subdirs IH Htl) as (d & t & rel & sd & Hin & Hd & -> & Hrel & Hat).
    exists (d :: rel), sd. rewrite <- app_assoc. split; [done|].
    split; [by constructor|]. cbn. eauto.
Qed.

Lemma walk_complete (rel : list string) :
  ∀ tree root sd files,
    dir_at tree rel (Dir sd files) →
    Forall (λ d, d ∉ skip_dirs config) rel →
    In (root ++ rel, prune config (map fst sd), files) (walk config root tree).
Proof.
  induction rel as [|d rel IH]; intros [subdirs fs] root sd files Hat Hrel.
  - cbn in Hat. simplify_eq. rewrite app_nil_r. cbn. by left.
  - cbn in Hat. destruct Hat as (t & Hin & Hat).
    apply Forall_cons in Hrel as [Hd Hrel].
    cbn. right.
    specialize (IH t (root ++ [d]) sd files Hat Hrel).
    rewrite <- app_assoc in IH. cbn in IH.
    clear -Hin Hd IH. induction subdirs as [|[d' t'] ds IHds]; [done|].
    destruct Hin as [[= -> ->]|Hin].
    + rewrite bool_decide_eq_false_2 by done. apply in_or_app. by left.
    + case_bool_decide; [by apply IHds|]. apply in_or_app. right. by apply IHds.
Qed.

(** X12. The scanner collects exactly the eligible files: a path is
    collected if and only if it is a file of the tree under the root whose
    suffix is a key of [ext_map] and which is reached through directories
    whose names are not in the skip-set. No such file is left out. *)
Theorem files_to_scan_exactly_the_eligible (target p : Path) :
  In p (files_to_scan host config target) ↔
  ∃ rel f, p = target ++ rel ++ [f] ∧
           file_at (listing host target) rel f ∧
           Forall (λ d, d ∉ skip_dirs config) rel ∧
           is_Some (ext_map !! PyPath.name_suffix f).
Proof.
  unfold files_to_scan. rewrite in_flat_map. split.
  - intros ([[root dirs] files] & Hw & Hin).
    apply in_map_iff in Hin as (f & <- & Hf).
    apply list_elem_of_In, list_elem_of_filter in Hf as [Hext Hf].
    apply walk_sound in Hw as (rel & sd & -> & Hrel & Hat).
    exists rel, f. rewrite <- app_assoc. split; [done|].
    split; [|done]. exists (Dir sd files). split; [done|].
    by apply list_elem_of_In.
  - intros (rel & f & -> & ([sd files] & Hat & Hf) & Hrel & Hext).
    exists (target ++ rel, prune config (map fst sd), files).
    split; [by apply walk_complete|].
    rewrite app_assoc. apply in_map_iff. exists f. split; [done|].
    apply list_elem_of_In, list_elem_of_filter. split; [done|].
    by apply list_elem_of_In.
Qed.

(** X13. Backups are kept apart from the sources: the backup path
    [_run_tool] uses for a file has a name that ends with [.codex.bak],
    which is what [cleanup_backups] looks for, and no file the scanner
    collects has such a name, so a backup left on disk is never analysed
    nor backed up itself. *)
Theorem backups_are_never_scanned (target : Path) :
  (∀ p backup, PyPath.with_suffix_appended p ".codex.bak" = Some backup →
     ∃ f, last backup = Some f ∧ endswith f ".codex.bak" = true) ∧
  (∀ p f, In p (files_to_scan host config target) → last p = Some f →
     endswith f ".codex.bak" = false).
Proof.
  split.
  - intros p backup H. unfold PyPath.with_suffix_appended in H.
    destruct (PyStr.truthy (PyPath.name p)); [|done]. simplify_eq.
    exists (PyPath.name p +:+ ".codex.bak"). split; [apply last_snoc|].
    apply endswith_split. eauto.
  - intros p f Hin Hlast.
    apply files_to_scan_spec in Hin as (rel & f' & -> & _ & Hext).
    rewrite !app_assoc, last_snoc in Hlast. simplify_eq.
    destruct (endswith f ".codex.bak") eqn:He; [|done].
    apply endswith_split in He as [pre ->].
    rewrite backup_name_suffix in Hext. by destruct Hext.
Qed.

End ScanComplete.

(** * Cleaning up backups *)

Lemma walk_all_sound (tree : DirTree) :
  ∀ root r dirs files,
    In (r, dirs, files) (walk_all root tree) →
    ∃ rel sd, r = root ++ rel ∧ dir_at tree rel (Dir sd files).
Proof.
  induction tree as [subdirs fs IH] using DirTree_nested_ind.
  intros root r dirs files. cbn. intros [Hhd|Htl].
  - simplify_eq. exists [], subdirs. by rewrite app_nil_r.
  - assert (Hgen : ∀ ds, Forall (λ d, ∀ root r dirs files,
        In (r, dirs, files) (walk_all root d.2) →
        ∃ rel sd, r = root ++ rel ∧ dir_at d.2 rel (Dir sd files)) ds →
      In (r, dirs, files)
         ((fix descend (ds : list (string * DirTree)) :=
             match ds with
             | [] => []
             | (d, sub) :: ds' => walk_all (root ++ [d]) sub ++ descend ds'
             end) ds) →
      ∃ d t rel sd, In (d, t) ds ∧ r = (root ++ [d]) ++ rel ∧
                    dir_at t rel (Dir sd files)).
    { clear. intros ds Hds. induction Hds as [|[d sub] ds Hsub _ IHds]; [done|].
      intros Hin. apply in_app_or in Hin as [Hin|Hin].
      - destruct (Hsub _ _ _ _ Hin) as (rel & sd & ? & ?).
        exists d, sub, rel, sd. split; [by left | done].
      - destruct (IHds Hin) as (d' & t & rel & sd & ? & ?).
        exists d', t, rel, sd. split; [by right | done]. }
    destruct (Hgen subdirs IH Htl) as (d & t & rel & sd & Hin & -> & Hat).
    exists (d :: rel), sd. rewrite <- app_assoc. split; [done|].
    cbn. eauto.
Qed.

Lemma walk_all_complete (rel : list string) :
  ∀ tree root sd files,
    dir_at tree rel (Dir sd files) →
    In (root ++ rel, map fst sd, files) (walk_all root tree).
Proof.
  induction rel as [|d rel IH]; intros [subdirs fs] root sd files Hat.
  - cbn in Hat. simplify_eq. rewrite app_nil_r. cbn. by left.
  - cbn in Hat. destruct Hat as (t & Hin & Hat).
    cbn. right.
    specialize (IH t (root ++ [d]) sd files Hat).
    rewrite <- app_assoc in IH. cbn in IH.
    clear -Hin IH. induction subdirs as [|[d' t'] ds IHds]; [done|].
    destruct Hin as [[= -> ->]|Hin]; apply in_or_app; [by left|].
    right. by apply IHds.
Qed.

(** The backups listed under a root are the files of the tree whose name
    ends with the marker, in whatever directory. *)
Lemma backups_listed_spec (root : Path) (tree : DirTree) (q : Path) :
  In q (backups_listed root tree) ↔
  ∃ rel f, q = root ++ rel ++ [f] ∧ file_at tree rel f ∧
           endswith f ".codex.bak" = true.
Proof.
  unfold backups_listed. rewrite in_flat_map. split.
  - intros ([[r dirs] files] & Hw & Hin).
    apply in_map_iff in Hin as (f & <- & Hf).
    apply filter_In in Hf as [Hf He].
    apply walk_all_sound in Hw as (rel & sd & -> & Hat).
    exists rel, f. rewrite <- app_assoc. split; [done|]. split; [|done].
    by exists (Dir sd files).
  - intros (rel & f & -> & ([sd files] & Hat & Hf) & He).
    exists (root ++ rel, map fst sd, files).
    split; [by apply walk_all_complete|].
    rewrite app_assoc. apply in_map_iff. exists f. split; [done|].
    by apply filter_In.
Qed.

Section Cleanup.

Variable host : Host.
Variable removable : Path → bool.

Lemma inner_sweep (r : Path) (files : list string) :
  ∀ st,
    foldl (λ st f, if endswith f ".codex.bak"
                   then remove_counted removable (r ++ [f]) st else st)
          st files
    = sweep removable (map (λ f, r ++ [f])
                 (List.filter (λ f, endswith f ".codex.bak") files)) st.
Proof.
  induction files as [|f files IH]; intros st; [done|].
  cbn. destruct (endswith f ".codex.bak"); cbn; apply IH.
Qed.

Lemma cleanup_is_sweep (path : Path) (d : gmap Path string) :
  cleanup_backups host removable path d
  = sweep removable (backups_listed path (listing host path)) (d, 0).
Proof.
  unfold cleanup_backups, backups_listed.
  generalize (walk_all path (listing host path)) (d, 0).
  intros l. induction l as [|[[r dirs] files] l IH]; intros st; [done|].
  cbn. rewrite IH, inner_sweep. unfold sweep. by rewrite foldl_app.
Qed.

Lemma sweep_lookup (targets : list Path) :
  ∀ d n q,
    (sweep removable targets (d, n)).1 !! q
    = if decide (q ∈ targets ∧ removable q = true) then None else d !! q.
Proof.
  induction targets as [|t targets IH]; intros d n q.
  - cbn. rewrite decide_False; [done|]. intros [H _]. by apply elem_of_nil in H.
  - change (sweep removable (t :: targets) (d, n))
      with (sweep removable targets (remove_counted removable t (d, n))).
    unfold remove_counted. cbn [fst snd].
    destruct (exists_on d t && removable t) eqn:E; rewrite IH.
    + apply andb_prop in E as [Hex Hrm].
      destruct (decide (q = t)) as [->|Hne].
      * rewrite (decide_True (P := t ∈ t :: targets ∧ _))
          by (split; [left | done]).
        case_decide; [done|]. apply lookup_delete_eq.
      * unfold remove. rewrite lookup_delete_ne by done.
        repeat case_decide; try done; exfalso.
        -- destruct H as [H ?]. apply H0. split; [by right | done].
        -- destruct H0 as [H0 ?]. apply elem_of_cons in H0 as [?|?]; [done|].
           by apply H.
    + destruct (decide (q = t)) as [->|Hne].
      * case_decide as H1.
        -- rewrite decide_True; [done|]. destruct H1. split; [by right|done].
        -- case_decide as H2; [|done].
           destruct H2 as [_ Hrm]. rewrite Hrm, andb_true_r in E.
           by apply not_exists_on.
      * repeat case_decide; try done; exfalso.
        -- destruct H as [H ?]. apply H0. split; [by right | done].
        -- destruct H0 as [H0 ?]. apply elem_of_cons in H0 as [?|?]; [done|].
           by apply H.
Qed.

Lemma sweep_count (targets : list Path) :
  ∀ d n,
    (sweep removable targets (d, n)).2 + size (sweep removable targets (d, n)).1 = n + size d.
Proof.
  induction targets as [|t targets IH]; intros d n; [done|].
  change (sweep removable (t :: targets) (d, n))
    with (sweep removable targets (remove_counted removable t (d, n))).
  unfold remove_counted. cbn [fst snd].
  destruct (exists_on d t && removable t) eqn:E; [|apply IH].
  rewrite IH. apply andb_prop in E as [Hex _].
  unfold exists_on in Hex. destruct (d !! t) eqn:Et; [|done].
  unfold remove. rewrite (map_size_delete_Some t d) by eauto.
  assert (size d ≠ 0); [|lia].
  intros Hz. apply map_size_empty_inv in Hz. subst d.
  by rewrite lookup_empty in Et.
Qed.

Lemma sweep_nothing_left (targets : list Path) :
  ∀ st,
    (∀ q, In q targets → exists_on st.1 q && removable q = false) →
    sweep removable targets st = st.
Proof.
  induction targets as [|t targets IH]; intros st H; [done|].
  change (sweep removable (t :: targets) st)
    with (sweep removable targets (remove_counted removable t st)).
  unfold remove_counted. rewrite (H t) by (by left).
  apply IH. intros q Hq. apply H. by right.
Qed.

(** X14. The cleanup removes backups only, and its count is honest: a
    path that is not on disk afterwards was not on disk before or is a file
    of the tree under the root whose name ends with [.codex.bak]; every
    other file keeps its content; and the number reported is the number of
    files that went. *)
Theorem cleanup_removes_backups_only (path : Path) (d : gmap Path string) :
  let '(d', count) := cleanup_backups host removable path d in
  (∀ q, d' !! q = d !! q ∨
        (d' !! q = None ∧
         ∃ rel f, q = path ++ rel ++ [f] ∧
                  file_at (listing host path) rel f ∧
                  endswith f ".codex.bak" = true)) ∧
  count + size d' = size d.
Proof.
  rewrite cleanup_is_sweep.
  destruct (sweep removable _ (d, 0)) as [d' count] eqn:E. split.
  - intros q.
    pose proof (sweep_lookup (backups_listed path (listing host path)) d 0 q) as Hq.
    rewrite E in Hq. cbn in Hq. case_decide as Hin; [|by left].
    right. split; [done|]. destruct Hin as [Hin _].
    by apply backups_listed_spec, list_elem_of_In.
  - pose proof (sweep_count (backups_listed path (listing host path)) d 0) as Hc.
    rewrite E in Hc. exact Hc.
Qed.

(** X15. The cleanup reaches every backup under the root, in the
    directories the scanner skips too: a file of the tree whose name ends
    with [.codex.bak] and which the system lets be removed is not on disk
    afterwards. *)
Theorem cleanup_removes_every_listed_backup (path : Path)
    (d : gmap Path string) (rel : list string) (f : string) :
  file_at (listing host path) rel f →
  endswith f ".codex.bak" = true →
  removable (path ++ rel ++ [f]) = true →
  (cleanup_backups host removable path d).1 !! (path ++ rel ++ [f]) = None.
Proof.
  intros Hat He Hrm. rewrite cleanup_is_sweep, sweep_lookup.
  rewrite decide_True; [done|]. split; [|done].
  apply list_elem_of_In, backups_listed_spec. eauto.
Qed.

End Cleanup.

(** X16. The cleanup is idempotent: run again on the files it left, it
    removes nothing and reports 0, whatever the second walk lists, as long
    as it lists no backup that the first walk did not list. *)
Theorem cleanup_twice_removes_nothing (host again : Host)
    (removable : Path → bool) (path : Path) (d : gmap Path string) :
  (∀ rel f, file_at (listing again path) rel f →
            endswith f ".codex.bak" = true →
            file_at (listing host path) rel f) →
  cleanup_backups again removable path
    (cleanup_backups host removable path d).1
  = ((cleanup_backups host removable path d).1, 0).
Proof.
  intros Hsub. rewrite !cleanup_is_sweep. apply sweep_nothing_left. cbn.
  intros q Hq. destruct (removable q) eqn:Hrm; [|apply andb_false_r].
  rewrite andb_true_r. unfold exists_on.
  rewrite sweep_lookup, decide_True; [done|].
  split; [|done].
  apply backups_listed_spec in Hq as (rel & f & -> & Hat & He).
  apply list_elem_of_In, backups_listed_spec.
  exists rel, f. split; [done|]. split; [by apply Hsub | done].
Qed.

(** * Reporting and history *)

Lemma filter_length_le {A} (f : A → bool) (l : list A) :
  length (List.filter f l) ≤ length l.
Proof. induction l as [|x l IH]; cbn; [done|]. destruct (f x); cbn; lia. Qed.

Lemma filter_length_all {A} (f : A → bool) (l : list A) :
  length (List.filter f l) = length l ↔ Forall (λ x, f x = true) l.
Proof.
  induction l as [|x l IH]; cbn; [split; [constructor | done]|].
  pose proof (filter_length_le f l).
  destruct (f x) eqn:E; cbn.
  - split.
    + intros [= H']. constructor; [done | by apply IH].
    + intros [_ H']%Forall_cons. f_equal. by apply IH.
  - split; [lia|]. intros [? _]%Forall_cons. congruence.
Qed.



Lemma print_table_cons (host : Host) (r : AnalysisResult)
    (results : list AnalysisResult) :
  print_table host (r :: results)
  = if prints host (RowLine (row_ok (report_row r)) (row_fixed (report_row r))
                      (row_type (report_row r)) (row_file (report_row r))
                      (row_info (report_row r))) then
      if print_all host (map DetailLine (row_details (report_row r))) then
        let '(rows, finished) := print_table host results in
        (report_row r :: rows, finished)
      else ([report_row r], false)
    else ([], false).
Proof. reflexivity. Qed.

Lemma print_table_finished (host : Host) (results : list AnalysisResult) :
  ∀ rows, print_table host results = (rows, true) →
          rows = map report_row results.
Proof.
  induction results as [|r results IH]; intros rows H.
  - cbn in H. by simplify_eq.
  - rewrite print_table_cons in H.
    destruct (prints host _); [|done].
    destruct (print_all host _); [|done].
    destruct (print_table host results) as [rs fin]. simplify_eq.
    cbn [map]. by rewrite (IH rs).
Qed.



(** A report that returns: everything was printed and the directory is
    there. *)
Lemma generate_report_some (host : Host) (now : string)
    (mkdir_ok export_ok : bool) (results : list AnalysisResult)
    (rows : list ReportRow) (blocked : bool) (summary : RunSummary) :
  generate_report host now mkdir_ok export_ok results
  = (rows, blocked, Some summary) →
  rows = map report_row results ∧
  blocked = (0 <? failed summary)%Z ∧
  mkdir_ok = true ∧
  summary = {| timestamp := now;
               total_files := Z.of_nat (length results);
               passed := count_where success results;
               failed := Z.of_nat (length results) - count_where success results;
               fixed := count_where was_fixed results |}.
Proof.
  unfold generate_report. intros H.
  destruct (print_all host (map Static _)); [|done]. cbn [negb] in H.
  destruct (print_table host results) as [rs fin] eqn:Et.
  destruct fin; [|done].
  destruct (print_all host [_; _]); [|done]. cbn [negb] in H.
  destruct ((0 <? _)%Z && negb _); [done|].
  destruct mkdir_ok; [|done]. cbn [andb] in H.
  destruct (_ || _); [|done].
  injection H as <- <- <-. apply print_table_finished in Et as ->. done.
Qed.



(** X17. The summary of a report adds up: passed plus failed is the
    number of results, fixed is at most that number, failed is 0 exactly
    when every result has [success] true, the line "MERGE BLOCKED" is
    printed exactly when failed is not 0, and there is one row per
    result. *)
Theorem report_summary_adds_up (host : Host) (now : string)
    (mkdir_ok export_ok : bool) (results : list AnalysisResult)
    (rows : list ReportRow) (blocked : bool) (summary : RunSummary) :
  generate_report host now mkdir_ok export_ok results
  = (rows, blocked, Some summary) →
  total_files summary = Z.of_nat (length results) ∧
  (passed summary + failed summary = total_files summary)%Z ∧
  (0 ≤ passed summary)%Z ∧ (0 ≤ failed summary)%Z ∧
  (0 ≤ fixed summary ≤ total_files summary)%Z ∧
  (failed summary = 0%Z ↔ Forall (λ r, success r = true) results) ∧
  (blocked = true ↔ failed summary ≠ 0%Z) ∧
  length rows = length results.
Proof.
  intros (-> & -> & _ & ->)%generate_report_some. cbn. unfold count_where.
  pose proof (filter_length_le success results).
  pose proof (filter_length_le was_fixed results).
  pose proof (filter_length_all success results) as Hall.
  split; [done|]. split; [lia|]. split; [lia|]. split; [lia|].
  split; [lia|]. split; [|split].
  - split; [intros Hz; apply Hall; lia | intros Hs; apply Hall in Hs; lia].
  - split; [intros Hb%Z.ltb_lt; lia | intros Hne; apply Z.ltb_lt; lia].
  - by rewrite length_map.
Qed.

Lemma spaces_length (n : nat) : String.length (spaces n) = n.
Proof. induction n as [|n IH]; cbn; [done | by rewrite IH]. Qed.

Lemma drop_length (n : nat) (s : string) :
  String.length (PyStr.drop n s) = String.length s - n.
Proof.
  revert s. induction n as [|n IH]; intros s; cbn; [lia|].
  destruct s as [|a s]; cbn; [done | apply IH].
Qed.

Lemma ljust_length (width : nat) (s : string) :
  String.length (ljust width s) = max width (String.length s).
Proof. unfold ljust. rewrite string_length_app, spaces_length. lia. Qed.

(** X18. The file column of the report is always 30 characters wide: a
    path of at most 30 characters is shown in full and padded, a longer one
    is shown as three dots and its last 27 characters. Under a row at most
    three error lines are shown, and none for a result that passed. *)
Theorem report_row_fits (r : AnalysisResult) :
  String.length (row_file (report_row r)) = 30 ∧
  (String.length (file_path r) ≤ 30 →
   row_file (report_row r)
   = file_path r +:+ spaces (30 - String.length (file_path r))) ∧
  (30 < String.length (file_path r) →
   ∃ front tail, file_path r = front +:+ tail ∧ String.length tail = 27 ∧
                 row_file (report_row r) = "..." +:+ tail) ∧
  length (row_details (report_row r)) ≤ 3 ∧
  (success r = true → row_details (report_row r) = []).
Proof.
  unfold report_row. cbn [row_file row_details]. unfold display_name.
  destruct (30 <? String.length (file_path r)) eqn:E.
  - apply Nat.ltb_lt in E.
    set (tail := PyStr.drop (String.length (file_path r) - 27) (file_path r)).
    assert (Ht : String.length tail = 27).
    { unfold tail. rewrite drop_length. lia. }
    assert (Hl : String.length ("..." +:+ tail) = 30).
    { rewrite string_length_app, Ht. done. }
    split; [rewrite ljust_length, Hl; lia|].
    split; [lia|]. split.
    + intros _. destruct (drop_is_suffix (String.length (file_path r) - 27)
                            (file_path r)) as [front Hf].
      exists front, tail. split; [done|]. split; [done|].
      unfold ljust. rewrite Hl. cbn [spaces Nat.sub].
      clear. generalize ("..." +:+ tail). intros s.
      induction s as [|a s IH]; [done|].
      change (String a (s +:+ "") = String a s). by rewrite IH.
    + split; [|by intros ->].
      destruct (negb (success r) && (0 <? length (errors r)));
        [rewrite length_take; lia | cbn; lia].
  - apply Nat.ltb_ge in E.
    split; [rewrite ljust_length; lia|].
    split; [done|]. split; [lia|].
    split; [|by intros ->].
    destruct (negb (success r) && (0 <? length (errors r)));
      [rewrite length_take; lia | cbn; lia].
Qed.










(** * The whole run *)

Section WholeRun.

Variable host : Host.


Lemma scan_takes_all (config : AppConfig)
    (tool_map : gmap string (list ToolConfig)) (target : Path) (w : World)
    (e : Exn) :
  takes_all host →
  (scan_directory host config tool_map target w).1 = Raise e →
  (max_workers config ≤ 0)%Z ∨
  ∃ finished rest,
    pool_futures host config tool_map target w
    = map Ok finished ++ Raise e :: rest.
Proof.
  intros Hc H.
  destruct (Z.leb_spec (max_workers config) 0) as [?|Hmw]; [by left|].
  right. rewrite (scan_directory_submitted _ _ _ _ _ (Hc _) Hmw) in H.
  rewrite Hc in H.
  destruct (gather host config _ []) as [rs|e'] eqn:Eg; [done|].
  simplify_eq.
  apply gather_raise in Eg as [?|(? & res & ? & _ & Hp)]; [done|].
  by rewrite Hc in Hp.
Qed.



End WholeRun.

(** * The further properties on concrete inputs *)

(** X1 on an input: the language kept has the one entry that has its
    keys. *)
Lemma validated_map_well_formed_witness :
  ∃ kept tools,
    JList [Samples.pylint_entry] = JList kept ∧ kept ≠ [] ∧
    Forall has_required_keys kept ∧
    ("python", JList tools) ∈ Samples.mixed_tool_map ∧ sublist kept tools.
Proof.
  refine (proj2 (validated_map_well_formed Samples.mixed_tool_map
                   Samples.mixed_tool_map_validated _) "python" _ _).
  - vm_compute. reflexivity.
  - left.
Defined.

(** X2 on an input. *)
Lemma validate_tool_map_idempotent_witness :
  ConfigLoader._validate_tool_map Samples.mixed_tool_map_validated
  = Ok Samples.mixed_tool_map_validated.
Proof.
  refine (validate_tool_map_idempotent Samples.mixed_tool_map _ _).
  vm_compute. reflexivity.
Defined.

(** X4 on an input: a configuration that adds [vendor] still skips the
    default directories. *)
Lemma load_keeps_default_skips_witness :
  ∃ loaded valid_map,
    ConfigLoader.load Samples.config_files
    = ConfigLoader.LoadOk loaded valid_map ∧
    ConfigLoader.DEFAULT_SKIP ⊆ ConfigLoader.lc_skip_dirs loaded ∧
    "vendor" ∈ ConfigLoader.lc_skip_dirs loaded.
Proof.
  eexists _, _. split; [vm_compute; reflexivity|]. split.
  - refine (proj1 (load_keeps_default_skips Samples.config_files _ _ _)).
    vm_compute. reflexivity.
  - vm_compute. reflexivity.
Defined.

(** X6 on a run of a fixer that fails. *)
Lemma run_tool_touches_file_and_backup_only_witness :
  ∃ d_in oc d_out,
    subprocess_run black_fails (length (trace original))
      (["black"; "-q"] ++ [PyPath.path_str a_py]) (PyPath.parent a_py)
      (default (default_timeout fixing) (tc_timeout black)) d_in
    = (oc, d_out) ∧
    (∀ q, q ≠ a_py_backup → d_in !! q = disk original !! q) ∧
    (∀ q, q ≠ a_py → q ≠ a_py_backup →
       disk (_run_tool black_fails fixing a_py black true original).2 !! q
       = d_out !! q) ∧
    (true = false →
     d_in = disk original ∧
     disk (_run_tool black_fails fixing a_py black true original).2 = d_out).
Proof.
  refine (run_tool_touches_file_and_backup_only black_fails fixing a_py
            a_py_backup black ["black"; "-q"] true original _
            (_run_tool black_fails fixing a_py black true original).1
            _ _ _ _).
  - reflexivity.
  - vm_compute. reflexivity.
  - vm_compute. reflexivity.
  - vm_compute. reflexivity.
Defined.

(** X7 on a run of a fixer that works. *)
Lemma successful_fixer_keeps_tool_output_witness :
  (_run_tool everything_clean fixing a_py black true original).1
  = Ok (0%Z, "", "") ∧
  disk (_run_tool everything_clean fixing a_py black true original).2
  = delete a_py_backup
      (<[a_py := "formatted"]> (<[a_py_backup := "original"]> (disk original))).
Proof.
  refine (successful_fixer_keeps_tool_output everything_clean fixing a_py
            a_py_backup black ["black"; "-q"] "" ""
            (<[a_py_backup := "original"]> (disk original))
            (<[a_py := "formatted"]> (<[a_py_backup := "original"]> (disk original)))
            original _ _ _ _ _ _ _ _).
  - reflexivity.
  - vm_compute. reflexivity.
  - vm_compute. reflexivity.
  - vm_compute. reflexivity.
  - vm_compute. reflexivity.
  - vm_compute. reflexivity.
Defined.

(** X8 on a run in fix mode. *)
Lemma fix_phase_precedes_check_phase_witness :
  ∃ fix_evs chk_evs,
    events_since original
      (process_file everything_clean fixing DEFAULT_TOOL_MAP a_py original).2
    = [EvAcquire (get_lock everything_clean a_py (concurrency_manager original)).1]
        ++ fix_evs
        ++ [EvRelease (get_lock everything_clean a_py (concurrency_manager original)).1]
        ++ chk_evs ∧
    Forall (λ e, is_fixer_run e = true) fix_evs ∧
    Forall (λ e, is_checker_run e = true) chk_evs.
Proof.
  refine (proj2 (fix_phase_precedes_check_phase everything_clean fixing
                   DEFAULT_TOOL_MAP a_py "python" [pylint; black] original _
                   (process_file everything_clean fixing DEFAULT_TOOL_MAP
                      a_py original).1 _ _ _)).
  - vm_compute. reflexivity.
  - reflexivity.
  - vm_compute. reflexivity.
Defined.

(** X9 on a run in check-only mode. *)
Lemma check_only_runs_checkers_only_witness :
  concurrency_manager
    (process_file everything_clean check_only DEFAULT_TOOL_MAP a_py original).2
  = concurrency_manager original.
Proof.
  refine (proj1 (check_only_runs_checkers_only everything_clean check_only
                   DEFAULT_TOOL_MAP a_py original _
                   (process_file everything_clean check_only DEFAULT_TOOL_MAP
                      a_py original).1 _ _)).
  - reflexivity.
  - vm_compute. reflexivity.
Defined.

(** X11 on a run: one checker entry, seven lines printed, five errors. *)
Lemma errors_and_warnings_bounded_witness :
  ∃ res,
    (process_file pylint_noisy check_only DEFAULT_TOOL_MAP a_py original).1
    = Ok res ∧
    length (errors res) + 5 * length (warnings res)
    ≤ 5 * length (List.filter is_checker_entry [pylint; black]).
Proof.
  eexists. split; [vm_compute; reflexivity|].
  refine (proj1 (errors_and_warnings_bounded pylint_noisy check_only
                   DEFAULT_TOOL_MAP a_py "python" [pylint; black] original
                   (process_file pylint_noisy check_only DEFAULT_TOOL_MAP
                      a_py original).2 _ _ _)).
  - vm_compute. reflexivity.
  - vm_compute. reflexivity.
Defined.

(** X10 on a run: the first fixer fails, the second one exits 0. *)
Lemma was_fixed_means_last_fixer_exited_zero_witness :
  ∃ failed_runs e,
    List.filter is_fixer_run
      (events_since original
         (process_file black_fails_autopep8_works fixing two_fixers a_py
            original).2)
    = failed_runs ++ [e] ∧
    exited_zero e = true ∧
    Forall (λ e, exited_zero e = false) failed_runs.
Proof.
  refine (proj2 (was_fixed_means_last_fixer_exited_zero
                   black_fails_autopep8_works fixing two_fixers a_py original
                   (process_file black_fails_autopep8_works fixing two_fixers
                      a_py original).2
                   {| file_path := "a.py"; language := "Python";
                      success := true; errors := []; warnings := [];
                      was_fixed := true |} _ _)).
  - vm_compute. reflexivity.
  - reflexivity.
Defined.

(** X15 on a run: the backup in the skipped directory goes too. *)
Lemma cleanup_removes_every_listed_backup_witness :
  (cleanup_backups Samples.littered (λ _, true) [] Samples.littered_disk).1
    !! ([] ++ ["node_modules"] ++ ["x.js.codex.bak"]) = None.
Proof.
  refine (cleanup_removes_every_listed_backup Samples.littered (λ _, true) []
            Samples.littered_disk ["node_modules"] "x.js.codex.bak" _ _ _).
  - exists (Dir [] ["x.js.codex.bak"; "x.js"]). split.
    + exists (Dir [] ["x.js.codex.bak"; "x.js"]). split; [left|]; reflexivity.
    + left. reflexivity.
  - vm_compute. reflexivity.
  - reflexivity.
Defined.

(** The cleanup of the littered tree: two files go, the sources stay. *)
Example cleanup_of_littered_tree :
  let '(d, count) :=
    cleanup_backups Samples.littered (λ _, true) [] Samples.littered_disk in
  count = 2 ∧
  d !! ["a.py"] = Some "x = 1" ∧
  d !! ["node_modules"; "x.js"] = Some "var x" ∧
  d !! ["a.py.codex.bak"] = None.
Proof. vm_compute. repeat split; reflexivity. Qed.

(** X17 on a report of one passed and one failed result. *)
Lemma report_summary_adds_up_witness :
  (passed (Samples.run_of "t" 1) + failed (Samples.run_of "t" 1)
   = total_files (Samples.run_of "t" 1))%Z ∧
  (failed (Samples.run_of "t" 1) = 0%Z ↔
   Forall (λ r, success r = true)
     [Samples.passed_result; Samples.failed_result]).
Proof.
  pose proof (report_summary_adds_up two_languages "t" true true
    [Samples.passed_result; Samples.failed_result]
    (map report_row [Samples.passed_result; Samples.failed_result])
    true (Samples.run_of "t" 1) ltac:(vm_compute; reflexivity))
    as (_ & Hsum & _ & _ & _ & Hiff & _).
  split; [exact Hsum | exact Hiff].
Defined.

(** A long path in the report: three dots and the last 27 characters. *)
Example long_path_is_cut :
  row_file (report_row Samples.failed_result)
  = ".../module_with_a_long_name.py" ∧
  row_info (report_row Samples.failed_result) = "4 Err" ∧
  row_details (report_row Samples.failed_result) = ["e1"; "e2"; "e3"].
Proof. vm_compute. repeat split; reflexivity. Qed.

(** X16 on a run: the second walk finds the tree without its backups. *)
Lemma cleanup_twice_removes_nothing_witness :
  cleanup_backups Samples.swept (λ _, true) []
    (cleanup_backups Samples.littered (λ _, true) [] Samples.littered_disk).1
  = ((cleanup_backups Samples.littered (λ _, true) [] Samples.littered_disk).1,
     0).
Proof.
  refine (cleanup_twice_removes_nothing Samples.littered Samples.swept
            (λ _, true) [] Samples.littered_disk _).
  intros rel f (sub & Hat & Hf) He. exfalso.
  destruct rel as [|d rel]; cbn in Hat.
  - subst sub. destruct Hf as [<-|[]]. vm_compute in He. discriminate He.
  - destruct Hat as (t & [[= <- <-]|[]] & Hat).
    destruct rel as [|d' rel]; cbn in Hat.
    + subst sub. destruct Hf as [<-|[]]. vm_compute in He. discriminate He.
    + destruct Hat as (t & [] & _).
Defined.


(** On a console that cannot print a trend that goes down, the run that
    has more failed files than the last one is not added to the history. *)
Example history_on_an_ascii_console :
  after_runs two_languages_ascii true [Samples.run_of "t1" 1]
    (History [stored (Samples.run_of "t0" 1)])
  = History (map stored [Samples.run_of "t0" 1; Samples.run_of "t1" 1]) ∧
  after_runs two_languages_ascii true [Samples.run_of "t1" 2]
    (History [stored (Samples.run_of "t0" 1)])
  = History [stored (Samples.run_of "t0" 1)].
Proof. vm_compute. split; reflexivity. Qed.


(** A run in which a task raises: the verdict is [False] and the history
    is not written. *)
Example run_with_a_raising_task :
  run_analysis two_languages (Some (check_only, string_command_map)) "t" true
    true true [] false false original NoHistory
  = (Ok false,
     (scan_directory two_languages check_only string_command_map [] original).2,
     NoHistory).
Proof. vm_compute. reflexivity. Qed.

(** The same two files, which both pass: over a history whose last run has
    no count of failed files, with a pool of no worker, and with verbose
    output on a console that cannot take the marks, the verdict is [False]
    each time, and the history is left as it was. *)
Example runs_that_fail_on_passing_files :
  (run_analysis two_languages (Some (check_only, DEFAULT_TOOL_MAP)) "t" true
     true true [] false false original Samples.odd_history).1.1 = Ok false ∧
  (run_analysis two_languages (Some (check_only, DEFAULT_TOOL_MAP)) "t" true
     true true [] false false original Samples.odd_history).2
  = Samples.odd_history ∧
  run_analysis two_languages (Some (no_worker, DEFAULT_TOOL_MAP)) "t"
    true true true [] false false original NoHistory
  = (Ok false, original, NoHistory) ∧
  (run_analysis two_languages_ascii (Some (check_only, DEFAULT_TOOL_MAP)) "t"
     true true true [] false true original NoHistory).1.1 = Ok false ∧
  (run_analysis two_languages_ascii (Some (check_only, DEFAULT_TOOL_MAP)) "t"
     true true true [] false true original NoHistory).2 = NoHistory.
Proof. vm_compute. repeat split; reflexivity. Qed.

